(** * Upload queue and n8n client: a shallow embedding

    Two source files are embedded here.

    - [src/lib/n8n.ts]: the thin clients of the n8n webhooks and of the
      Supabase store ([callN8nRAGAgent], [getUserProjects],
      [uploadDocumentToN8n], [saveChatRecord]).  They live in [Module N8n].
    - the [FileUpload] React component: its [uploadFiles] state and the
      handlers that transform it.  They live in [Module FileUpload].

    JavaScript values that the code inspects (strings, [null], thrown
    values, parsed JSON) are modelled in [Module Js].  The outside world is
    explicit: identity provider, HTTP and database are an environment
    record, clock and random source an oracle.  Every call that leaves the
    process is appended to a trace, so that "no request was sent" is a
    statement about a list. *)

From Stdlib Require Import String Ascii List Bool Arith NArith ZArith Lia.
From Stdlib Require Import DecimalString DecimalN.
Import ListNotations.
Open Scope string_scope.

Set Implicit Arguments.
Set Warnings "-register-all".

(** ** JavaScript values and control flow *)

Module Js.

(** A value reaching a [catch] clause: an [Error] object, of which the
    code reads [message], or anything else ([error instanceof Error] is
    false). *)
Inductive Thrown : Type :=
| ErrorObj (message : string)
| NotAnError.

(** How a statement or an awaited promise ends. *)
Inductive Completion (A : Type) : Type :=
| Normal (a : A)
| Abrupt (e : Thrown).
Arguments Normal {A} a.
Arguments Abrupt {A} e.

(** [error instanceof Error ? error.message : fallback] *)
Definition message_or (e : Thrown) (fallback : string) : string :=
  match e with
  | ErrorObj m => m
  | NotAnError => fallback
  end.

(** Truthiness of a string: every string but the empty one. *)
Definition truthy_string (s : string) : bool := negb (s =? "").

(** Truthiness of a [string | null | undefined]. *)
Definition truthy_opt (o : option string) : bool :=
  match o with
  | Some s => truthy_string s
  | None => false
  end.

(** [o || fallback] for [o : string | undefined]. *)
Definition or_else (o : option string) (fallback : string) : string :=
  if truthy_opt o then match o with Some s => s | None => fallback end
  else fallback.

(** The text a template literal produces for a non-negative integer. *)
Definition String_of_N (n : N) : string :=
  NilEmpty.string_of_uint (N.to_uint n).

(** The values [JSON.parse] builds.  Numbers are kept as integers: the
    code below looks at a number only to ask whether it is truthy. *)
Inductive JsValue : Type :=
| JsNull
| JsBool (b : bool)
| JsNumber (z : Z)
| JsString (s : string)
| JsArray (items : list JsValue)
| JsObject (fields : list (string * JsValue)).

Definition truthy (v : JsValue) : bool :=
  match v with
  | JsNull => false
  | JsBool b => b
  | JsNumber z => negb (z =? 0)%Z
  | JsString s => truthy_string s
  | JsArray _ => true
  | JsObject _ => true
  end.

Fixpoint lookup_field (k : string) (fields : list (string * JsValue))
  : option JsValue :=
  match fields with
  | [] => None
  | (k', v) :: rest => if k' =? k then Some v else lookup_field k rest
  end.

(** [v.k]: reading a property of [null] throws a [TypeError]; a missing
    property, or any property of a primitive or an array that is not
    there, is [undefined] ([None]). *)
Definition get_property (v : JsValue) (k : string)
  : Completion (option JsValue) :=
  match v with
  | JsNull => Abrupt (ErrorObj "Cannot read properties of null")
  | JsObject fields => Normal (lookup_field k fields)
  | _ => Normal None
  end.

(** A browser [File]: the metadata the code reads. *)
Record File : Type := mkFile {
  name : string;
  type : string;
  size : N;
  lastModified : N
}.

End Js.

(** ** src/lib/n8n.ts *)

Module N8n.
Import Js.

Record N8nChatResponse : Type := mkResponse {
  success : bool;
  response : option JsValue;
  error : option string
}.

Record UserProject : Type := mkProject {
  project_id : string;
  project_name : string
}.

(** [projectId: string | string[]] *)
Inductive ProjectRef : Type :=
| OneProject (p : string)
| ManyProjects (ps : list string).

Record User : Type := mkUser { user_id : string }.

(** What a [fetch] sends. *)
Inductive RequestBody : Type :=
| JsonBody (chatInput : string) (project : ProjectRef) (user : string)
| FormData (file : File) (project : string) (user : string) (title : string).

(** What a [fetch] resolves to; [body] is what [response.text()] yields. *)
Record Response : Type := mkHttp {
  status : N;
  statusText : string;
  body : string
}.

(** [response.ok]: the status is in the range 200-299. *)
Definition ok (r : Response) : bool :=
  ((200 <=? status r) && (status r <=? 299))%N.

Record DbError : Type := mkDbError { db_message : string }.

Record ProjectQuery : Type := mkQuery {
  data : option (list UserProject);
  query_error : option DbError
}.

(** The row [saveChatRecord] inserts into [chat_history]. *)
Record ChatRow : Type := mkRow {
  content : string;
  ai_content : string;
  role : string;
  agent_type : string;
  row_project : option string;
  row_user : string;
  metadata_project_ids : list string
}.

(** Calls that leave the process, in the order they are made. *)
Inductive Call : Type :=
| AuthGetUser
| HttpPost (url : string) (payload : RequestBody)
| SelectProjects (creator : string)
| InsertChat (row : ChatRow).

(** A call that carries the user's identity.  Resolving the identity
    itself ([auth.getUser]) is not one. *)
Definition needs_identity (c : Call) : bool :=
  match c with
  | AuthGetUser => false
  | _ => true
  end.

(** The world outside: build flag, identity provider, HTTP, database and
    the JSON parser. *)
Record Env : Type := mkEnv {
  DEV : bool;
  auth_getUser : Completion (option User);
  fetch : string -> RequestBody -> Completion Response;
  projects_select : string -> Completion ProjectQuery;
  chat_insert : ChatRow -> Completion (option DbError);
  JSON_parse : string -> Completion JsValue
}.

(** *** Effects: a trace of calls and an exception *)

Definition Eff (A : Type) : Type := list Call -> Completion A * list Call.

Definition ret {A} (a : A) : Eff A := fun tr => (Normal a, tr).

Definition throw {A} (e : Thrown) : Eff A := fun tr => (Abrupt e, tr).

Definition bind {A B} (m : Eff A) (k : A -> Eff B) : Eff B :=
  fun tr =>
    match m tr with
    | (Normal a, tr') => k a tr'
    | (Abrupt e, tr') => (Abrupt e, tr')
    end.

Definition try_catch {A} (m : Eff A) (handler : Thrown -> Eff A) : Eff A :=
  fun tr =>
    match m tr with
    | (Normal a, tr') => (Normal a, tr')
    | (Abrupt e, tr') => handler e tr'
    end.

(** Make the call [c], then continue as the world answers. *)
Definition await {A} (c : Call) (answer : Completion A) : Eff A :=
  fun tr => (answer, (tr ++ [c])%list).

Notation "x <- m ;; k" := (bind m (fun x => k))
  (at level 61, m at next level, right associativity).

(** Run from an empty trace. *)
Definition run {A} (m : Eff A) : Completion A * list Call := m [].

(** *** Configuration *)

Definition N8N_WEBHOOK_URL (env : Env) : string :=
  if DEV env
  then "/api/n8n/webhook/1afe3c51-e81d-477b-b3e6-0686bc772534"
  else "https://n8n.aifunbox.com/webhook/1afe3c51-e81d-477b-b3e6-0686bc772534".

Definition uploadUrl (env : Env) : string :=
  if DEV env
  then "/api/n8n/webhook/upload-document"
  else "https://n8n.aifunbox.com/webhook/upload-document".

Definition getUser (env : Env) : Eff (option User) :=
  await AuthGetUser (auth_getUser env).

Definition post (env : Env) (url : string) (payload : RequestBody)
  : Eff Response :=
  await (HttpPost url payload) (fetch env url payload).

(** *** callN8nRAGAgent *)

(** Lines 82-94: decode the text as JSON and pick [ai_content]; when the
    inner [try] throws, the raw text stays. *)
Definition cleanResponse (env : Env) (result : string) : JsValue :=
  match JSON_parse env result with
  | Abrupt _ => JsString result
  | Normal jsonResponse =>
    match get_property jsonResponse "ai_content" with
    | Abrupt _ => JsString result
    | Normal field =>
      match field with
      | Some v =>
        if truthy v then v
        else match jsonResponse with
             | JsString s => JsString s
             | _ => JsString result
             end
      | None =>
        match jsonResponse with
        | JsString s => JsString s
        | _ => JsString result
        end
      end
    end
  end.

Definition chat_failure_message (r : Response) : string :=
  "n8n调用失败: " ++ String_of_N (status r) ++ " " ++ statusText r.

Definition callN8nRAGAgent (env : Env) (chatInput : string)
    (projectId : ProjectRef) : Eff N8nChatResponse :=
  try_catch
    (user <- getUser env ;;
     match user with
     | None => throw (ErrorObj "用户未登录")
     | Some u =>
       response <- post env (N8N_WEBHOOK_URL env)
                     (JsonBody chatInput projectId (user_id u)) ;;
       if negb (ok response)
       then throw (ErrorObj (chat_failure_message response))
       else ret {| success := true;
                   response := Some (cleanResponse env (body response));
                   error := None |}
     end)
    (fun e =>
       ret {| success := false;
              response := None;
              error := Some (message_or e "未知错误") |}).

(** *** getUserProjects *)

Definition getUserProjects (env : Env) : Eff (list UserProject) :=
  try_catch
    (user <- getUser env ;;
     match user with
     | None => throw (ErrorObj "用户未登录")
     | Some u =>
       q <- await (SelectProjects (user_id u))
              (projects_select env (user_id u)) ;;
       match query_error q with
       | Some err => throw (ErrorObj ("获取项目失败: " ++ db_message err))
       | None =>
         ret (match data q with Some projects => projects | None => [] end)
       end
     end)
    (fun _ => ret []).

(** *** uploadDocumentToN8n *)

Definition upload_failure_message (r : Response) : string :=
  "文件上传失败: " ++ String_of_N (status r) ++ " " ++ statusText r.

(** Line 258: [response.ok || (response.status === 500 && result)] *)
Definition upload_accepted (r : Response) : bool :=
  ok r || ((status r =? 500)%N && truthy_string (body r)).

Definition uploadDocumentToN8n (env : Env) (file : File)
    (projectId title userId : string) : Eff N8nChatResponse :=
  try_catch
    (response <- post env (uploadUrl env)
                   (FormData file projectId userId title) ;;
     let result := body response in
     if upload_accepted response
     then ret {| success := true;
                 response := Some (JsString result);
                 error := None |}
     else throw (ErrorObj (upload_failure_message response)))
    (fun e =>
       ret {| success := false;
              response := None;
              error := Some (message_or e "文件上传失败") |}).

(** *** saveChatRecord *)

Definition projectIdStr (projectId : ProjectRef) : option string :=
  match projectId with
  | OneProject p => Some p
  | ManyProjects ps => hd_error ps
  end.

Definition project_ids (projectId : ProjectRef) : list string :=
  match projectId with
  | OneProject p => [p]
  | ManyProjects ps => ps
  end.

(** Both outcomes of the insert, and anything thrown, are only logged. *)
Definition saveChatRecord (env : Env) (userMessage aiResponse : string)
    (projectId : ProjectRef) : Eff unit :=
  try_catch
    (user <- getUser env ;;
     match user with
     | None => ret tt
     | Some u =>
       let row := {| content := userMessage;
                     ai_content := aiResponse;
                     role := "user";
                     agent_type := "project_agent";
                     row_project := projectIdStr projectId;
                     row_user := user_id u;
                     metadata_project_ids := project_ids projectId |} in
       _ <- await (InsertChat row) (chat_insert env row) ;;
       ret tt
     end)
    (fun _ => ret tt).

End N8n.

(** ** The FileUpload component *)

Module FileUpload.
Import Js.

Inductive Status : Type := Pending | Uploading | Success | Error.

Definition Status_eqb (a b : Status) : bool :=
  match a, b with
  | Pending, Pending | Uploading, Uploading
  | Success, Success | Error, Error => true
  | _, _ => false
  end.

Record UploadFile : Type := mkUpload {
  file : File;
  id : string;
  status : Status;
  progress : Z;
  error : option string;
  title : string
}.

Record FileUploadProps : Type := mkProps {
  projectId : string;
  userId : string
}.

Definition acceptedTypes : list string :=
  [ "application/pdf";
    "image/jpeg";
    "image/png";
    "image/gif";
    "application/msword";
    "application/vnd.openxmlformats-officedocument.wordprocessingml.document";
    "text/plain" ].

(** [Array.prototype.includes] on strings. *)
Definition includes (l : list string) (s : string) : bool :=
  existsb (fun x => x =? s) l.

Definition maxSize : N := 50 * 1024 * 1024.

Definition validateFile (f : File) : option string :=
  if negb (includes acceptedTypes (type f))
  then Some "不支持的文件类型。请上传PDF、图片、Word文档或文本文件。"
  else if (maxSize <? size f)%N
  then Some "文件大小不能超过50MB"
  else None.

(** *** Identifiers

    [`${Date.now()}-${Math.random()}`] reads the clock and the random
    source once per file.  A reading is the pair of values obtained; the
    random number is kept as the text the template literal prints for it
    (number-to-string conversion is one-to-one on the values
    [Math.random] returns). *)
Record Reading : Type := mkReading {
  Date_now : N;
  Math_random : string
}.

(** The [n]-th pair of readings taken since the component was mounted. *)
Definition Oracle : Type := nat -> Reading.

Definition new_id (r : Reading) : string :=
  String_of_N (Date_now r) ++ "-" ++ Math_random r.

(** Lines 54-66: the entries built by the [forEach], the first of them
    with reading number [n]. *)
Fixpoint newFiles (o : Oracle) (n : nat) (files : list File)
  : list UploadFile :=
  match files with
  | [] => []
  | f :: rest =>
    let error := validateFile f in
    {| file := f;
       id := new_id (o n);
       status := if truthy_opt error then Error else Pending;
       progress := 0;
       error := error;
       title := name f |} :: newFiles o (S n) rest
  end.

(** *** The functions handed to [setUploadFiles] *)

Definition to_uploading (f : UploadFile) : UploadFile :=
  {| file := file f; id := id f; status := Uploading; progress := 0;
     error := error f; title := title f |}.

Definition to_next_progress (f : UploadFile) : UploadFile :=
  {| file := file f; id := id f; status := status f;
     progress := progress f + 10;
     error := error f; title := title f |}.

Definition to_success (f : UploadFile) : UploadFile :=
  {| file := file f; id := id f; status := Success; progress := 100;
     error := error f; title := title f |}.

Definition to_error (message : string) (f : UploadFile) : UploadFile :=
  {| file := file f; id := id f; status := Error; progress := 0;
     error := Some message; title := title f |}.

Definition to_title (newTitle : string) (f : UploadFile) : UploadFile :=
  {| file := file f; id := id f; status := status f;
     progress := progress f;
     error := error f; title := newTitle |}.

(** Line 68 *)
Definition append_new (new : list UploadFile) (prev : list UploadFile)
  : list UploadFile := (prev ++ new)%list.

(** Lines 73-77 *)
Definition mark_uploading (i : string) (prev : list UploadFile)
  : list UploadFile :=
  map (fun f => if id f =? i then to_uploading f else f) prev.

(** Lines 81-85 *)
Definition tick (i : string) (prev : list UploadFile) : list UploadFile :=
  map (fun f => if (id f =? i) && (progress f <? 90)%Z
                then to_next_progress f else f) prev.

(** Lines 99-103 *)
Definition mark_success (i : string) (prev : list UploadFile)
  : list UploadFile :=
  map (fun f => if id f =? i then to_success f else f) prev.

(** Lines 109-118 *)
Definition mark_error (i : string) (message : string)
    (prev : list UploadFile) : list UploadFile :=
  map (fun f => if id f =? i then to_error message f else f) prev.

(** Line 128 *)
Definition without (i : string) (prev : list UploadFile)
  : list UploadFile :=
  filter (fun f => negb (id f =? i)) prev.

(** Lines 132-134 *)
Definition retitle (i : string) (newTitle : string)
    (prev : list UploadFile) : list UploadFile :=
  map (fun f => if id f =? i then to_title newTitle f else f) prev.

(** *** Derived values of a render *)

Definition is_pending (f : UploadFile) : bool :=
  Status_eqb (status f) Pending.

Definition is_error (f : UploadFile) : bool :=
  Status_eqb (status f) Error.

(** Lines 299 and 302 *)
Definition pendingCount (l : list UploadFile) : nat :=
  length (filter is_pending l).

Definition errorCount (l : list UploadFile) : nat :=
  length (filter is_error l).

(** Line 161 *)
Definition allCompleted (l : list UploadFile) : bool :=
  (0 <? length l)%nat &&
  forallb (fun f => Status_eqb (status f) Success
                    || Status_eqb (status f) Error) l.

(** Line 162 *)
Definition hasSuccess (l : list UploadFile) : bool :=
  existsb (fun f => Status_eqb (status f) Success) l.

(** Line 236: the [disabled] attribute of the title input. *)
Definition titleInputDisabled (f : UploadFile) : bool :=
  Status_eqb (status f) Uploading || Status_eqb (status f) Success.

(** *** Component state

    Besides [uploadFiles] the state keeps what the handlers leave behind
    in the browser: the running intervals, the upload attempts suspended
    at their [await], the requests sent, and how many readings of the
    clock and random source were taken. *)

Record Interval : Type := mkInterval {
  handle : nat;
  target : string;
  delay : N
}.

(** An [uploadFile] call suspended at line 89: the entry it closed over,
    its interval, and what the awaited promise will settle to. *)
Record Attempt : Type := mkAttempt {
  entry : UploadFile;
  timer : nat;
  outcome : Completion N8n.N8nChatResponse
}.

Record State : Type := mkState {
  uploadFiles : list UploadFile;
  intervals : list Interval;
  nextHandle : nat;
  inflight : list Attempt;
  network : list N8n.Call;
  readings : nat
}.

Definition initial : State :=
  {| uploadFiles := []; intervals := []; nextHandle := 0;
     inflight := []; network := []; readings := 0 |}.

Definition setUploadFiles (g : list UploadFile -> list UploadFile)
    (st : State) : State :=
  {| uploadFiles := g (uploadFiles st);
     intervals := intervals st;
     nextHandle := nextHandle st;
     inflight := inflight st;
     network := network st;
     readings := readings st |}.

Definition clearInterval (h : nat) (st : State) : State :=
  {| uploadFiles := uploadFiles st;
     intervals := filter (fun t => negb (handle t =? h)%nat) (intervals st);
     nextHandle := nextHandle st;
     inflight := inflight st;
     network := network st;
     readings := readings st |}.

(** *** Handlers *)

Definition handleFiles (o : Oracle) (files : list File) (st : State)
  : State :=
  let new := newFiles o (readings st) files in
  {| uploadFiles := append_new new (uploadFiles st);
     intervals := intervals st;
     nextHandle := nextHandle st;
     inflight := inflight st;
     network := network st;
     readings := (readings st + length files)%nat |}.

(** [uploadFile] up to its [await] (lines 72-94): the entry is marked,
    the interval is set, the request leaves. *)
Definition uploadFile_start (props : FileUploadProps) (env : N8n.Env)
    (u : UploadFile) (st : State) : State :=
  let h := nextHandle st in
  let '(result, sent) :=
    N8n.uploadDocumentToN8n env (file u) (projectId props) (title u)
      (userId props) (network st) in
  {| uploadFiles := mark_uploading (id u) (uploadFiles st);
     intervals := {| handle := h; target := id u; delay := 300 |}
                    :: intervals st;
     nextHandle := S h;
     inflight := (inflight st ++
                   [{| entry := u; timer := h; outcome := result |}])%list;
     network := sent;
     readings := readings st |}.

(** The [catch] clause, lines 108-119. *)
Definition uploadFile_catch (u : UploadFile) (e : Thrown) (st : State)
  : State :=
  setUploadFiles (mark_error (id u) (message_or e "上传失败")) st.

(** [uploadFile] from its [await] on (lines 96-119).  A rejected promise
    jumps to the [catch] clause past [clearInterval]. *)
Definition uploadFile_resume (a : Attempt) (st : State) : State :=
  let u := entry a in
  match outcome a with
  | Abrupt e => uploadFile_catch u e st
  | Normal result =>
    let st1 := clearInterval (timer a) st in
    if N8n.success result
    then setUploadFiles (mark_success (id u)) st1
    else uploadFile_catch u
           (ErrorObj (or_else (N8n.error result) "上传失败")) st1
  end.

(** A firing of interval [h], if it is still set. *)
Definition interval_fires (h : nat) (st : State) : State :=
  match find (fun t => (handle t =? h)%nat) (intervals st) with
  | Some t => setUploadFiles (tick (target t)) st
  | None => st
  end.

(** Lines 122-125.  The handler of the current render sees the current
    [uploadFiles]. *)
Definition startUpload (props : FileUploadProps) (env : N8n.Env)
    (st : State) : State :=
  let pendingFiles := filter is_pending (uploadFiles st) in
  fold_left (fun s u => uploadFile_start props env u s) pendingFiles st.

Definition removeFile (i : string) (st : State) : State :=
  setUploadFiles (without i) st.

Definition updateFileTitle (i : string) (newTitle : string) (st : State)
  : State :=
  setUploadFiles (retitle i newTitle) st.

(** The [k]-th suspended attempt is resumed and leaves the list. *)
Definition settle (k : nat) (st : State) : State :=
  match nth_error (inflight st) k with
  | None => st
  | Some a =>
    uploadFile_resume a
      {| uploadFiles := uploadFiles st;
         intervals := intervals st;
         nextHandle := nextHandle st;
         inflight := (firstn k (inflight st)
                        ++ skipn (S k) (inflight st))%list;
         network := network st;
         readings := readings st |}
  end.

(** *** The component as a transition system *)

Inductive Event : Type :=
| FilesChosen (files : list File)
| StartClicked
| IntervalFired (h : nat)
| UploadSettled (k : nat)
| RemoveClicked (i : string)
| TitleEdited (i : string) (newTitle : string).

Definition step (props : FileUploadProps) (env : N8n.Env) (o : Oracle)
    (e : Event) (st : State) : State :=
  match e with
  | FilesChosen files => handleFiles o files st
  | StartClicked => startUpload props env st
  | IntervalFired h => interval_fires h st
  | UploadSettled k => settle k st
  | RemoveClicked i => removeFile i st
  | TitleEdited i newTitle => updateFileTitle i newTitle st
  end.

(** The event resumes an attempt whose ingestion call returned a success
    result: the branch of lines 98-103 is the one taken. *)
Definition takes_success_branch (e : Event) (st : State) : bool :=
  match e with
  | UploadSettled k =>
    match nth_error (inflight st) k with
    | Some a =>
      match outcome a with
      | Normal result => N8n.success result
      | Abrupt _ => false
      end
    | None => false
    end
  | _ => false
  end.

Definition run (props : FileUploadProps) (env : N8n.Env) (o : Oracle)
    (events : list Event) (st : State) : State :=
  fold_left (fun s e => step props env o e s) events st.

(** One upload attempt on its own: start, [k] firings of its interval,
    then the response. *)
Definition uploadFile (props : FileUploadProps) (env : N8n.Env)
    (k : nat) (u : UploadFile) (st : State) : State :=
  let st1 := uploadFile_start props env u st in
  let h := nextHandle st in
  let st2 := Nat.iter k (interval_fires h) st1 in
  settle (length (inflight st)) st2.

End FileUpload.

(** ** The validation rule in the words of the specification

    A second definition, written from the specification and independent of
    [FileUpload.validateFile], to compare the handler against. *)

Module Spec.
Import Js.

Inductive MediaType : Type :=
| PDF | JPEG | PNG | GIF | LegacyWord | ModernWord | PlainText.

Definition allowList : list MediaType :=
  [PDF; JPEG; PNG; GIF; LegacyWord; ModernWord; PlainText].

Definition mime (m : MediaType) : string :=
  match m with
  | PDF => "application/pdf"
  | JPEG => "image/jpeg"
  | PNG => "image/png"
  | GIF => "image/gif"
  | LegacyWord => "application/msword"
  | ModernWord =>
    "application/vnd.openxmlformats-officedocument.wordprocessingml.document"
  | PlainText => "text/plain"
  end.

(** 50 MiB in bytes. *)
Definition MiB50 : N := 52428800.

(** The media type is on the allow-list and the size is at most 50 MiB. *)
Definition passes_validation (f : File) : bool :=
  existsb (fun m => mime m =? type f) allowList && (size f <=? MiB50)%N.

(** Enqueue one batch after another. *)
Definition enqueue_all (o : FileUpload.Oracle) (batches : list (list File))
    (st : FileUpload.State) : FileUpload.State :=
  fold_left (fun s files => FileUpload.handleFiles o files s) batches st.

End Spec.

(** ** Concrete worlds and files used in the examples *)

Module Fixtures.
Import Js.

Definition report_pdf : File :=
  {| name := "report.pdf"; type := "application/pdf";
     size := 1048576; lastModified := 0 |}.

Definition photo_png : File :=
  {| name := "photo.png"; type := "image/png";
     size := 2097152; lastModified := 0 |}.

Definition setup_exe : File :=
  {| name := "setup.exe"; type := "application/x-msdownload";
     size := 4096; lastModified := 0 |}.

Definition notes_txt : File :=
  {| name := "notes.txt"; type := "text/plain";
     size := 1048576; lastModified := 0 |}.

Definition huge_pdf : File :=
  {| name := "scan.pdf"; type := "application/pdf";
     size := 62914560; lastModified := 0 |}.

Definition props : FileUpload.FileUploadProps :=
  {| FileUpload.projectId := "project-1"; FileUpload.userId := "user-1" |}.

Definition alice : N8n.User := {| N8n.user_id := "user-1" |}.

(** A world in which every request is answered by [r] (or fails with
    [e]), the identity provider answers [who], and the database is empty
    and accepts every row.  The parser rejects every text. *)
Definition world (who : option N8n.User)
    (net : Completion N8n.Response) : N8n.Env :=
  {| N8n.DEV := false;
     N8n.auth_getUser := Normal who;
     N8n.fetch := fun _ _ => net;
     N8n.projects_select :=
       fun _ => Normal {| N8n.data := Some []; N8n.query_error := None |};
     N8n.chat_insert := fun _ => Normal None;
     N8n.JSON_parse := fun _ => Abrupt (ErrorObj "Unexpected token") |}.

Definition http200 : N8n.Response :=
  {| N8n.status := 200; N8n.statusText := "OK"; N8n.body := "stored" |}.

Definition http404 : N8n.Response :=
  {| N8n.status := 404; N8n.statusText := "Not Found";
     N8n.body := "no such webhook" |}.

Definition http500 : N8n.Response :=
  {| N8n.status := 500; N8n.statusText := "Internal Server Error";
     N8n.body := "Workflow executed" |}.

(** The clock stands still and the random source repeats itself. *)
Definition stuck : FileUpload.Oracle :=
  fun _ => {| FileUpload.Date_now := 1700000000000;
              FileUpload.Math_random := "0.5" |}.

(** The clock advances by one millisecond per reading. *)
Definition ticking : FileUpload.Oracle :=
  fun n => {| FileUpload.Date_now := 1700000000000 + N.of_nat n;
              FileUpload.Math_random := "0.5" |}.

(** Two files dropped while the clock and the random source repeat. *)
Definition collided : FileUpload.State :=
  FileUpload.handleFiles stuck [photo_png; setup_exe] FileUpload.initial.

(** One valid file in the queue, and its entry. *)
Definition queued : FileUpload.State :=
  FileUpload.handleFiles ticking [photo_png] FileUpload.initial.

Definition photo_entry : FileUpload.UploadFile :=
  {| FileUpload.file := photo_png;
     FileUpload.id := "1700000000000-0.5";
     FileUpload.status := FileUpload.Pending;
     FileUpload.progress := 0;
     FileUpload.error := None;
     FileUpload.title := "photo.png" |}.

(** The queued file once its upload has been started. *)
Definition started : FileUpload.State :=
  FileUpload.startUpload props (world None (Normal http200)) queued.

(** A world whose parser reads every text as an object with the field
    [ai_content]. *)
Definition world_json (who : option N8n.User)
    (net : Completion N8n.Response) : N8n.Env :=
  {| N8n.DEV := false;
     N8n.auth_getUser := Normal who;
     N8n.fetch := fun _ _ => net;
     N8n.projects_select :=
       fun _ => Normal {| N8n.data := Some []; N8n.query_error := None |};
     N8n.chat_insert := fun _ => Normal None;
     N8n.JSON_parse :=
       fun _ => Normal (JsObject [("ai_content", JsString "hello")]) |}.


End Fixtures.

(** ** The rest of src/lib/n8n.ts *)

Module N8nRest.
Import Js N8n.

(** *** callN8nRAGAgentLocal (lines 111-182) *)

Definition local_failure_message (r : Response) : string :=
  "本地n8n调用失败: " ++ String_of_N (status r) ++ " " ++ statusText r.

Definition callN8nRAGAgentLocal (env : Env) (chatInput : string)
    (projectId : ProjectRef) : Eff N8nChatResponse :=
  try_catch
    (user <- getUser env ;;
     match user with
     | None => throw (ErrorObj "用户未登录")
     | Some u =>
       response <- post env (N8N_WEBHOOK_URL env)
                     (JsonBody chatInput projectId (user_id u)) ;;
       if negb (ok response)
       then throw (ErrorObj (local_failure_message response))
       else ret {| success := true;
                   response := Some (cleanResponse env (body response));
                   error := None |}
     end)
    (fun e =>
       ret {| success := false;
              response := None;
              error := Some (message_or e "本地n8n连接失败") |}).

(** *** getChatRecords (lines 319-356) *)

Inductive Role : Type := RoleUser | RoleAssistant.

Record ChatRecord : Type := mkChatRecord {
  record_id : string;
  record_content : string;
  record_ai_content : string;
  record_role : Role;
  record_agent_type : string;
  record_project_id : string;
  record_user_id : string;
  record_metadata : JsValue;
  record_created_at : string
}.

Record ChatQuery : Type := mkChatQuery {
  chat_data : option (list ChatRecord);
  chat_error : option DbError
}.

(** The calls [getChatRecords] makes: the identity lookup and the query
    [select * from chat_history] with its two [eq] filters, newest first,
    and its [limit]. *)
Inductive StoreCall : Type :=
| StoreGetUser
| SelectChatHistory (user agent : string) (limit : N).

(** The store answering that query. *)
Definition ChatStore : Type := string -> string -> N -> Completion ChatQuery.

(** The same trace-and-exception effect as [N8n.Eff], over any type of
    calls. *)
Definition EffOn (C A : Type) : Type := list C -> Completion A * list C.

Definition ret_on {C A} (a : A) : EffOn C A := fun tr => (Normal a, tr).

Definition bind_on {C A B} (m : EffOn C A) (k : A -> EffOn C B)
  : EffOn C B :=
  fun tr =>
    match m tr with
    | (Normal a, tr') => k a tr'
    | (Abrupt e, tr') => (Abrupt e, tr')
    end.

Definition try_catch_on {C A} (m : EffOn C A) (handler : Thrown -> EffOn C A)
  : EffOn C A :=
  fun tr =>
    match m tr with
    | (Normal a, tr') => (Normal a, tr')
    | (Abrupt e, tr') => handler e tr'
    end.

Definition await_on {C A} (c : C) (answer : Completion A) : EffOn C A :=
  fun tr => (answer, (tr ++ [c])%list).

Notation "x <~ m ;; k" := (bind_on m (fun x => k))
  (at level 61, m at next level, right associativity).

(** [limit = 20]: the default applies when the argument is left out. *)
Definition getChatRecords (env : Env) (store : ChatStore)
    (limit : option N) : EffOn StoreCall (list ChatRecord) :=
  let limit := match limit with Some n => n | None => 20%N end in
  try_catch_on
    (user <~ await_on StoreGetUser (auth_getUser env) ;;
     match user with
     | None => ret_on []
     | Some u =>
       q <~ await_on (SelectChatHistory (user_id u) "project_agent" limit)
              (store (user_id u) "project_agent" limit) ;;
       match chat_error q with
       | Some _ => ret_on []
       | None =>
         ret_on (match chat_data q with Some rows => rows | None => [] end)
       end
     end)
    (fun _ => ret_on []).

(** The user a call speaks for, when it names one. *)
Definition carried_user (c : Call) : option string :=
  match c with
  | AuthGetUser => None
  | HttpPost _ (JsonBody _ _ user) => Some user
  | HttpPost _ (FormData _ _ user _) => Some user
  | SelectProjects creator => Some creator
  | InsertChat row => Some (row_user row)
  end.

(** A result object is either a success with a payload and no error, or a
    failure with an error and no payload. *)
Definition well_formed (r : N8nChatResponse) : Prop :=
  (success r = true /\ error r = None /\ exists v, response r = Some v)
  \/ (success r = false /\ response r = None /\ exists m, error r = Some m).

End N8nRest.

(** ** The rest of the FileUpload component *)

Module Dialog.
Import Js FileUpload.

(** [String.prototype.includes] *)
Definition str_includes (s sub : string) : bool :=
  match String.index 0 sub s with
  | Some _ => true
  | None => false
  end.

(** Lines 35-41 *)
Definition getFileIcon (f : File) : string :=
  if String.prefix "image/" (type f) then "🖼️"
  else if type f =? "application/pdf" then "📄"
  else if str_includes (type f) "word" then "📝"
  else if type f =? "text/plain" then "📰"
  else "📁".

(** The footer of the dialog, lines 291-316. *)
Definition closeLabel (l : list UploadFile) : string :=
  if allCompleted l then "完成" else "取消".

Definition startShown (l : list UploadFile) : bool := negb (allCompleted l).

Definition startDisabled (l : list UploadFile) : bool :=
  (length (filter is_pending l) =? 0)%nat.

Definition refreshShown (l : list UploadFile) : bool :=
  allCompleted l && hasSuccess l.

(** Lines 245 and 261: what a row shows under the title. *)
Definition progressBarShown (f : UploadFile) : bool :=
  Status_eqb (status f) Uploading.

Definition errorTextShown (f : UploadFile) : bool :=
  Status_eqb (status f) Error.

(** The identifiers a sequence of events removes. *)
Definition removed_ids (events : list Event) : list string :=
  flat_map (fun e => match e with
                     | RemoveClicked i => [i]
                     | _ => []
                     end) events.

Definition chooses_files (e : Event) : bool :=
  match e with
  | FilesChosen _ => true
  | _ => false
  end.

(** The interval an attempt set at line 80. *)
Definition interval_of (a : Attempt) : Interval :=
  {| handle := timer a; target := id (entry a); delay := 300 |}.

(** The request an attempt on [u] sends. *)
Definition request_of (props : FileUploadProps) (env : N8n.Env)
    (u : UploadFile) : N8n.Call :=
  N8n.HttpPost (N8n.uploadUrl env)
    (N8n.FormData (file u) (projectId props) (userId props) (title u)).

(** What holds of every entry of a queue built by the handlers: progress
    is a multiple of 10 up to 100 and is 100 exactly for a stored file, a
    pending entry has no error and an entry in error has a message. *)
Definition entry_ok (f : UploadFile) : Prop :=
  (exists k, (0 <= k <= 10)%Z /\ progress f = (10 * k)%Z)
  /\ (progress f = 100%Z <-> status f = Success)
  /\ (status f = Pending -> error f = None)
  /\ (status f = Error -> exists m, error f = Some m /\ m <> "").

(** What holds of the attempts in flight and of the intervals: every
    awaited call will return a result, the intervals set are those of the
    attempts in flight, newest first, and handles are not reused. *)
Definition timers_ok (st : State) : Prop :=
  Forall (fun a => exists r, outcome a = Normal r) (inflight st)
  /\ intervals st = rev (map interval_of (inflight st))
  /\ NoDup (map timer (inflight st))
  /\ Forall (fun a => (timer a < nextHandle st)%nat) (inflight st).

End Dialog.

(** ** Further concrete worlds *)

Module Samples.
Import Js.

Definition project_a : N8n.UserProject :=
  {| N8n.project_id := "project-1"; N8n.project_name := "Contracts" |}.

(** A signed-in world whose database answers as given. *)
Definition world_db (projects : Completion N8n.ProjectQuery)
    (insert : Completion (option N8n.DbError)) : N8n.Env :=
  {| N8n.DEV := true;
     N8n.auth_getUser := Normal (Some Fixtures.alice);
     N8n.fetch := fun _ _ => Normal Fixtures.http200;
     N8n.projects_select := fun _ => projects;
     N8n.chat_insert := fun _ => insert;
     N8n.JSON_parse := fun _ => Abrupt (ErrorObj "Unexpected token") |}.

Definition turn_1 : N8nRest.ChatRecord :=
  {| N8nRest.record_id := "r1";
     N8nRest.record_content := "hello";
     N8nRest.record_ai_content := "hi";
     N8nRest.record_role := N8nRest.RoleUser;
     N8nRest.record_agent_type := "project_agent";
     N8nRest.record_project_id := "project-1";
     N8nRest.record_user_id := "user-1";
     N8nRest.record_metadata := JsNull;
     N8nRest.record_created_at := "2025-01-01T00:00:00Z" |}.

(** A store holding one turn of [user-1]. *)
Definition one_turn : N8nRest.ChatStore :=
  fun user agent _ =>
    if (user =? "user-1") && (agent =? "project_agent")
    then Normal {| N8nRest.chat_data := Some [turn_1];
                   N8nRest.chat_error := None |}
    else Normal {| N8nRest.chat_data := Some [];
                   N8nRest.chat_error := None |}.

(** Two attempts and what their calls settled to. *)
Definition photo_stored : FileUpload.Attempt :=
  {| FileUpload.entry := Fixtures.photo_entry;
     FileUpload.timer := 0;
     FileUpload.outcome :=
       Normal {| N8n.success := true;
                 N8n.response := Some (JsString "stored");
                 N8n.error := None |} |}.

Definition notes_failed : FileUpload.Attempt :=
  {| FileUpload.entry :=
       {| FileUpload.file := Fixtures.notes_txt;
          FileUpload.id := "1700000000001-0.5";
          FileUpload.status := FileUpload.Pending;
          FileUpload.progress := 0;
          FileUpload.error := None;
          FileUpload.title := "notes.txt" |};
     FileUpload.timer := 1;
     FileUpload.outcome :=
       Normal {| N8n.success := false;
                 N8n.response := None;
                 N8n.error := Some "文件上传失败: 404 Not Found" |} |}.

End Samples.

(** * Properties of src/lib/n8n.ts *)

Module N8nFacts.
Import Js N8n.

Lemma ok_range (r : Response) :
  ok r = true <-> (200 <= status r <= 299)%N.
Proof.
  unfold ok. rewrite andb_true_iff, !N.leb_le. tauto.
Qed.

Lemma truthy_string_true (s : string) : truthy_string s = true <-> s <> "".
Proof.
  unfold truthy_string. rewrite negb_true_iff. apply String.eqb_neq.
Qed.

Lemma truthy_string_false (s : string) : truthy_string s = false <-> s = "".
Proof.
  unfold truthy_string. rewrite negb_false_iff. apply String.eqb_eq.
Qed.

(** The upload request is sent exactly once, whatever comes back, and the
    function returns a result object rather than throwing. *)
Lemma uploadDocumentToN8n_total env file p t u tr :
  exists result,
    uploadDocumentToN8n env file p t u tr =
      (Normal result, (tr ++ [HttpPost (uploadUrl env) (FormData file p u t)])%list).
Proof.
  unfold uploadDocumentToN8n, try_catch, bind, post, await, ret, throw.
  destruct (fetch env (uploadUrl env) (FormData file p u t)) as [r | e].
  - destruct (upload_accepted r); eexists; reflexivity.
  - eexists; reflexivity.
Qed.

(** What [uploadDocumentToN8n] returns for each answer of the network. *)
Lemma uploadDocumentToN8n_result env file p t u tr :
  fst (uploadDocumentToN8n env file p t u tr) =
    Normal
      match fetch env (uploadUrl env) (FormData file p u t) with
      | Normal r =>
        if upload_accepted r
        then {| success := true; response := Some (JsString (body r));
                error := None |}
        else {| success := false; response := None;
                error := Some (upload_failure_message r) |}
      | Abrupt e =>
        {| success := false; response := None;
           error := Some (message_or e "文件上传失败") |}
      end.
Proof.
  unfold uploadDocumentToN8n, try_catch, bind, post, await, ret, throw.
  destruct (fetch env (uploadUrl env) (FormData file p u t)) as [r | e];
    [destruct (upload_accepted r) |]; reflexivity.
Qed.

(** A 500 with a non-empty body is accepted by the upload call. *)
Lemma upload_accepts_500_with_body env file p t u (r : Response) :
  fetch env (uploadUrl env) (FormData file p u t) = Normal r ->
  status r = 500%N -> body r <> "" ->
  fst (run (uploadDocumentToN8n env file p t u)) =
    Normal {| success := true; response := Some (JsString (body r));
              error := None |}.
Proof.
  intros Hfetch H500 Hbody. unfold run.
  rewrite uploadDocumentToN8n_result, Hfetch.
  unfold upload_accepted.
  apply N.eqb_eq in H500. apply truthy_string_true in Hbody.
  rewrite H500, Hbody, orb_true_r. reflexivity.
Qed.

(** C5, amended.  Of the responses whose status is not in 200-299, the
    ingestion call accepts exactly those with status 500 and a non-empty
    body: the result then has [success = true] and carries the body.
    Every other such response gives [success = false] and the message
    built from the status, whatever the body. *)
Theorem upload_leniency_is_status_500_only
    (env : Env) (file : File) (p t u : string) (r : Response) :
  fetch env (uploadUrl env) (FormData file p u t) = Normal r ->
  ok r = false ->
  (status r = 500%N /\ body r <> "" ->
     fst (run (uploadDocumentToN8n env file p t u)) =
       Normal {| success := true; response := Some (JsString (body r));
                 error := None |})
  /\
  (status r <> 500%N \/ body r = "" ->
     fst (run (uploadDocumentToN8n env file p t u)) =
       Normal {| success := false; response := None;
                 error := Some ("文件上传失败: " ++ String_of_N (status r)
                                 ++ " " ++ statusText r) |}).
Proof.
  intros Hfetch Hok. unfold run.
  rewrite uploadDocumentToN8n_result, Hfetch.
  unfold upload_accepted. rewrite Hok. cbn [orb].
  split.
  - intros [H500 Hbody].
    apply N.eqb_eq in H500. apply truthy_string_true in Hbody.
    rewrite H500, Hbody. reflexivity.
  - intros [Hn500 | Hempty].
    + apply N.eqb_neq in Hn500. rewrite Hn500. reflexivity.
    + apply truthy_string_false in Hempty. rewrite Hempty, andb_false_r.
      reflexivity.
Qed.

Lemma upload_leniency_is_status_500_only_witness :
  fst (run (uploadDocumentToN8n
              (Fixtures.world None (Normal Fixtures.http500))
              Fixtures.report_pdf "project-1" "Report" "user-1")) =
    Normal {| success := true;
              response := Some (JsString "Workflow executed");
              error := None |}.
Proof.
  apply (upload_leniency_is_status_500_only
           (Fixtures.world None (Normal Fixtures.http500))
           Fixtures.report_pdf "project-1" "Report" "user-1"
           (r := Fixtures.http500)).
  - reflexivity.
  - reflexivity.
  - split; [reflexivity | discriminate].
Defined.

(** C5 as first stated fails: a 404 with a body is a failure status with
    a non-empty body, and the call reports failure. *)
Lemma upload_404_with_body_is_failure :
  ok Fixtures.http404 = false /\
  body Fixtures.http404 <> "" /\
  fst (run (uploadDocumentToN8n
              (Fixtures.world None (Normal Fixtures.http404))
              Fixtures.report_pdf "project-1" "Report" "user-1")) =
    Normal {| success := false; response := None;
              error := Some "文件上传失败: 404 Not Found" |}.
Proof.
  split; [reflexivity | split; [discriminate | reflexivity]].
Qed.

(** *** The chat call *)

(** C10.  When the response status is not in 200-299, [callN8nRAGAgent]
    returns [success = false] with the status in the message, and the
    body plays no part; in particular a 500 with a non-empty body, which
    the upload call accepts, is a failure here. *)
Theorem chat_rejects_every_failure_status
    (env : Env) (chatInput : string) (projectId : ProjectRef)
    (u : User) (r : Response) :
  auth_getUser env = Normal (Some u) ->
  fetch env (N8N_WEBHOOK_URL env) (JsonBody chatInput projectId (user_id u))
    = Normal r ->
  ok r = false ->
  run (callN8nRAGAgent env chatInput projectId) =
    (Normal {| success := false; response := None;
               error := Some ("n8n调用失败: " ++ String_of_N (status r)
                               ++ " " ++ statusText r) |},
     [AuthGetUser;
      HttpPost (N8N_WEBHOOK_URL env)
        (JsonBody chatInput projectId (user_id u))])
  /\
  forall file p t uid,
    fetch env (uploadUrl env) (FormData file p uid t) = Normal r ->
    status r = 500%N -> body r <> "" ->
    fst (run (uploadDocumentToN8n env file p t uid)) =
      Normal {| success := true; response := Some (JsString (body r));
                error := None |}.
Proof.
  intros Hauth Hfetch Hok. split.
  - unfold run, callN8nRAGAgent, try_catch, bind, getUser, post, await,
      ret, throw.
    rewrite Hauth. cbn [app]. rewrite Hfetch, Hok. reflexivity.
  - intros file p t uid Hup H500 Hbody.
    apply upload_accepts_500_with_body; assumption.
Qed.

Lemma chat_rejects_every_failure_status_witness :
  run (callN8nRAGAgent
         (Fixtures.world (Some Fixtures.alice) (Normal Fixtures.http500))
         "hello" (OneProject "project-1")) =
    (Normal {| success := false; response := None;
               error := Some "n8n调用失败: 500 Internal Server Error" |},
     [AuthGetUser;
      HttpPost "https://n8n.aifunbox.com/webhook/1afe3c51-e81d-477b-b3e6-0686bc772534"
        (JsonBody "hello" (OneProject "project-1") "user-1")])
  /\
  fst (run (uploadDocumentToN8n
              (Fixtures.world (Some Fixtures.alice) (Normal Fixtures.http500))
              Fixtures.report_pdf "project-1" "Report" "user-1")) =
    Normal {| success := true;
              response := Some (JsString "Workflow executed");
              error := None |}.
Proof.
  destruct (chat_rejects_every_failure_status
              (Fixtures.world (Some Fixtures.alice) (Normal Fixtures.http500))
              "hello" (OneProject "project-1")
              (u := Fixtures.alice) (r := Fixtures.http500)
              eq_refl eq_refl eq_refl) as [Hchat Hupload].
  split.
  - exact Hchat.
  - apply Hupload; [reflexivity | reflexivity | discriminate].
Defined.

(** *** Calls made without a signed-in user *)

(** C9, amended.  When the identity provider resolves no user, each of
    the three operations stops after asking for the identity: the trace
    holds that one call and none that carries an identity.  The chat call
    returns a failure result with the message of the guard; the project
    listing returns the empty list and the record save returns normally. *)
Theorem no_user_no_identity_call
    (env : Env) (chatInput userMessage aiResponse : string)
    (projectId : ProjectRef) :
  auth_getUser env = Normal None ->
  run (callN8nRAGAgent env chatInput projectId) =
    (Normal {| success := false; response := None;
               error := Some "用户未登录" |}, [AuthGetUser])
  /\ run (getUserProjects env) = (Normal [], [AuthGetUser])
  /\ run (saveChatRecord env userMessage aiResponse projectId) =
       (Normal tt, [AuthGetUser])
  /\ existsb needs_identity [AuthGetUser] = false.
Proof.
  intros Hauth.
  unfold run, callN8nRAGAgent, getUserProjects, saveChatRecord,
    try_catch, bind, getUser, await, ret, throw.
  rewrite Hauth. cbn. repeat split.
Qed.

Lemma no_user_no_identity_call_witness :
  run (callN8nRAGAgent (Fixtures.world None (Normal Fixtures.http200))
         "hello" (OneProject "project-1")) =
    (Normal {| success := false; response := None;
               error := Some "用户未登录" |}, [AuthGetUser]).
Proof.
  apply (no_user_no_identity_call
           (Fixtures.world None (Normal Fixtures.http200))
           "hello" "hello" "hi" (OneProject "project-1")).
  reflexivity.
Defined.

(** C9 as first stated fails: without a user the project listing and the
    record save hand their caller the very value a successful call
    yields, so no failure reaches the caller. *)
Lemma no_user_listing_and_save_report_nothing :
  auth_getUser (Fixtures.world None (Normal Fixtures.http200)) = Normal None
  /\ fst (run (getUserProjects
                 (Fixtures.world None (Normal Fixtures.http200)))) =
     fst (run (getUserProjects
                 (Fixtures.world (Some Fixtures.alice)
                    (Normal Fixtures.http200))))
  /\ fst (run (getUserProjects
                 (Fixtures.world None (Normal Fixtures.http200)))) =
     Normal []
  /\ fst (run (saveChatRecord
                 (Fixtures.world None (Normal Fixtures.http200))
                 "hello" "hi" (OneProject "project-1"))) =
     fst (run (saveChatRecord
                 (Fixtures.world (Some Fixtures.alice)
                    (Normal Fixtures.http200))
                 "hello" "hi" (OneProject "project-1")))
  /\ fst (run (saveChatRecord
                 (Fixtures.world None (Normal Fixtures.http200))
                 "hello" "hi" (OneProject "project-1"))) =
     Normal tt.
Proof.
  repeat split.
Qed.

End N8nFacts.

(** * Properties of the FileUpload component *)

Module FileUploadFacts.
Import Js FileUpload.

(** ** Validation *)

Lemma validateFile_spec (f : File) :
  if Spec.passes_validation f
  then validateFile f = None
  else exists m, validateFile f = Some m /\ m <> "".
Proof.
  unfold Spec.passes_validation, validateFile, includes.
  change (existsb (fun m => Spec.mime m =? type f) Spec.allowList)
    with (existsb (fun x => x =? type f) acceptedTypes).
  destruct (existsb (fun x => x =? type f) acceptedTypes); cbn [negb andb].
  - change maxSize with Spec.MiB50.
    rewrite N.ltb_antisym.
    destruct (size f <=? Spec.MiB50)%N; cbn [negb].
    + reflexivity.
    + eexists; split; [reflexivity | discriminate].
  - eexists; split; [reflexivity | discriminate].
Qed.

Lemma status_of_new (f : File) :
  (if truthy_opt (validateFile f) then Error else Pending) =
  (if Spec.passes_validation f then Pending else Error).
Proof.
  pose proof (validateFile_spec f) as H.
  destruct (Spec.passes_validation f).
  - rewrite H. reflexivity.
  - destruct H as [m [-> Hm]]. cbn [truthy_opt].
    apply N8nFacts.truthy_string_true in Hm. rewrite Hm. reflexivity.
Qed.

Lemma newFiles_app o n (a b : list File) :
  newFiles o n (a ++ b) =
  (newFiles o n a ++ newFiles o (n + length a) b)%list.
Proof.
  revert n. induction a as [| f a IH]; intros n; cbn [newFiles app length].
  - rewrite Nat.add_0_r. reflexivity.
  - rewrite IH. rewrite <- Nat.add_succ_comm. reflexivity.
Qed.

Lemma newFiles_file o n files : map file (newFiles o n files) = files.
Proof.
  revert n. induction files as [| f files IH]; intros n; cbn.
  - reflexivity.
  - rewrite IH. reflexivity.
Qed.

Lemma newFiles_each o n files :
  Forall (fun e =>
            progress e = 0%Z /\ title e = name (file e) /\
            if Spec.passes_validation (file e)
            then status e = Pending /\ error e = None
            else status e = Error /\
                 exists m, error e = Some m /\ m <> "")
         (newFiles o n files).
Proof.
  revert n. induction files as [| f files IH]; intros n; cbn [newFiles].
  - constructor.
  - constructor; [| apply IH].
    cbn [progress title file status error].
    rewrite status_of_new.
    pose proof (validateFile_spec f) as H.
    destruct (Spec.passes_validation f); auto.
Qed.

Lemma newFiles_pending o n files :
  pendingCount (newFiles o n files) =
  length (filter Spec.passes_validation files).
Proof.
  unfold pendingCount.
  revert n. induction files as [| f files IH]; intros n; cbn [newFiles filter].
  - reflexivity.
  - unfold is_pending at 1. cbn [status]. rewrite status_of_new.
    destruct (Spec.passes_validation f); cbn [Status_eqb length];
      rewrite IH; reflexivity.
Qed.

Lemma newFiles_error o n files :
  errorCount (newFiles o n files) =
  length (filter (fun f => negb (Spec.passes_validation f)) files).
Proof.
  unfold errorCount.
  revert n. induction files as [| f files IH]; intros n; cbn [newFiles filter].
  - reflexivity.
  - unfold is_error at 1. cbn [status]. rewrite status_of_new.
    destruct (Spec.passes_validation f); cbn [Status_eqb length negb];
      rewrite IH; reflexivity.
Qed.

Lemma filter_split {A} (p : A -> bool) (l : list A) :
  (length (filter p l) + length (filter (fun x => negb (p x)) l))%nat
  = length l.
Proof.
  induction l as [| x l IH]; cbn; [reflexivity |].
  destruct (p x); cbn; lia.
Qed.

Lemma enqueue_all_uploadFiles o batches st :
  uploadFiles (Spec.enqueue_all o batches st) =
  (uploadFiles st ++ newFiles o (readings st) (concat batches))%list.
Proof.
  unfold Spec.enqueue_all.
  revert st. induction batches as [| b bs IH]; intros st; cbn [fold_left concat].
  - cbn. rewrite app_nil_r. reflexivity.
  - rewrite IH. cbn [handleFiles uploadFiles readings]. unfold append_new.
    rewrite newFiles_app, app_assoc. reflexivity.
Qed.

(** C1.  [handleFiles] appends one entry per file, in order: the entry of
    a file on the allow-list and of at most 50 MiB is pending, the entry
    of any other file is in error with a non-empty message.  Among the
    appended entries the pending ones are as many as the files passing
    validation, and pending plus error ones as many as the files; for
    any batches enqueued into the empty collection, [pendingCount] is the
    number of files passing validation and pending plus error is the
    number of files enqueued. *)
Theorem enqueue_validates_and_counts
    (o : Oracle) (files : list File) (batches : list (list File))
    (st : State) :
  let new := newFiles o (readings st) files in
  uploadFiles (handleFiles o files st) = (uploadFiles st ++ new)%list
  /\ map file new = files
  /\ Forall (fun e =>
               if Spec.passes_validation (file e)
               then status e = Pending
               else status e = Error /\
                    exists m, error e = Some m /\ m <> "") new
  /\ pendingCount new = length (filter Spec.passes_validation files)
  /\ (pendingCount new + errorCount new)%nat = length files
  /\ pendingCount (uploadFiles (handleFiles o files st)) =
     (pendingCount (uploadFiles st)
      + length (filter Spec.passes_validation files))%nat
  /\ pendingCount (uploadFiles (Spec.enqueue_all o batches initial)) =
     length (filter Spec.passes_validation (concat batches))
  /\ (pendingCount (uploadFiles (Spec.enqueue_all o batches initial))
      + errorCount (uploadFiles (Spec.enqueue_all o batches initial)))%nat =
     length (concat batches).
Proof.
  intros new. subst new.
  split; [reflexivity |].
  split; [apply newFiles_file |].
  split.
  { eapply Forall_impl; [| apply newFiles_each].
    intros e (_ & _ & H). destruct (Spec.passes_validation (file e)); tauto. }
  split; [apply newFiles_pending |].
  split.
  { rewrite newFiles_pending, newFiles_error. apply filter_split. }
  split.
  { cbn [handleFiles uploadFiles]. unfold append_new, pendingCount.
    rewrite filter_app, length_app. fold (pendingCount (newFiles o (readings st) files)).
    rewrite newFiles_pending. reflexivity. }
  rewrite enqueue_all_uploadFiles. cbn [uploadFiles initial app readings].
  split.
  - apply newFiles_pending.
  - rewrite newFiles_pending, newFiles_error. apply filter_split.
Qed.

(** ** Updating entries by identifier *)

Lemma eqb_comm (a b : string) : (a =? b) = (b =? a).
Proof.
  destruct (String.eqb_spec a b) as [-> | Hne].
  - symmetry. apply String.eqb_refl.
  - symmetry. apply String.eqb_neq. congruence.
Qed.

Lemma includes_In (l : list string) (s : string) :
  includes l s = true <-> In s l.
Proof.
  unfold includes. rewrite existsb_exists. split.
  - intros [x [Hin Heq]]. apply String.eqb_eq in Heq. subst. exact Hin.
  - intros Hin. exists s. split; [exact Hin | apply String.eqb_refl].
Qed.

(** Distinct identifiers: an identifier names one entry. *)
Lemma unique_id_names_one (l : list UploadFile) (f g : UploadFile) :
  NoDup (map id l) -> In f l -> In g l -> id f = id g -> f = g.
Proof.
  induction l as [| x l IH]; cbn [map]; intros Hnd Hf Hg Hid.
  - destruct Hf.
  - inversion Hnd as [| ? ? Hnotin Hnd']; subst.
    destruct Hf as [-> | Hf], Hg as [-> | Hg].
    + reflexivity.
    + exfalso. apply Hnotin. rewrite Hid. apply in_map. exact Hg.
    + exfalso. apply Hnotin. rewrite <- Hid. apply in_map. exact Hf.
    + apply IH; assumption.
Qed.

Lemma mark_uploading_many (us l : list UploadFile) :
  fold_left (fun acc u => mark_uploading (id u) acc) us l =
  map (fun f => if includes (map id us) (id f) then to_uploading f else f) l.
Proof.
  revert l. induction us as [| u us IH]; intros l; cbn [fold_left map].
  - cbn. symmetry. apply map_id.
  - rewrite IH. unfold mark_uploading. rewrite map_map.
    apply map_ext. intros f. unfold includes. cbn [existsb].
    fold (includes (map id us)).
    rewrite (eqb_comm (id u) (id f)).
    destruct (id f =? id u); cbn [orb id to_uploading].
    + match goal with
      | |- (if ?c then _ else _) = _ => destruct c
      end; reflexivity.
    + reflexivity.
Qed.

(** ** Fields of the state after [uploadFile_start] *)

Lemma uploadFile_start_eq props env u st :
  exists result,
    fst (N8n.uploadDocumentToN8n env (file u) (projectId props) (title u)
           (userId props) (network st)) = Normal result /\
    uploadFile_start props env u st =
      {| uploadFiles := mark_uploading (id u) (uploadFiles st);
         intervals := {| handle := nextHandle st; target := id u;
                         delay := 300 |} :: intervals st;
         nextHandle := S (nextHandle st);
         inflight := (inflight st ++
                       [{| entry := u; timer := nextHandle st;
                           outcome := Normal result |}])%list;
         network := (network st ++
                      [N8n.HttpPost (N8n.uploadUrl env)
                         (N8n.FormData (file u) (projectId props)
                            (userId props) (title u))])%list;
         readings := readings st |}.
Proof.
  destruct (N8nFacts.uploadDocumentToN8n_total env (file u)
              (projectId props) (title u) (userId props) (network st))
    as [result Hup].
  exists result. unfold uploadFile_start. rewrite Hup. split; reflexivity.
Qed.

Lemma startUpload_fold props env (us : list UploadFile) st :
  uploadFiles (fold_left (fun s u => uploadFile_start props env u s) us st)
    = fold_left (fun acc u => mark_uploading (id u) acc) us (uploadFiles st)
  /\ length (inflight
               (fold_left (fun s u => uploadFile_start props env u s) us st))
     = (length (inflight st) + length us)%nat.
Proof.
  revert st. induction us as [| u us IH]; intros st; cbn [fold_left length].
  - split; [reflexivity | lia].
  - destruct (IH (uploadFile_start props env u st)) as [IH1 IH2].
    destruct (uploadFile_start_eq props env u st) as [result [_ Heq]].
    rewrite IH1, IH2, Heq. cbn [uploadFiles inflight].
    split; [reflexivity |]. rewrite length_app. cbn [length]. lia.
Qed.

(** What [startUpload] does to the collection, with or without distinct
    identifiers: an entry moves when its identifier is that of a pending
    entry. *)
Lemma startUpload_uploadFiles props env st :
  uploadFiles (startUpload props env st) =
  map (fun f =>
         if includes (map id (filter is_pending (uploadFiles st))) (id f)
         then to_uploading f else f)
      (uploadFiles st).
Proof.
  unfold startUpload.
  destruct (startUpload_fold props env
              (filter is_pending (uploadFiles st)) st) as [H _].
  rewrite H. apply mark_uploading_many.
Qed.

(** C2, amended.  In a collection whose identifiers are pairwise
    distinct, [startUpload] turns each pending entry into an uploading
    one with progress 0 and its other fields kept, leaves every other
    entry as it is, and starts one attempt per pending entry. *)
Theorem startUpload_moves_exactly_the_pending
    (props : FileUploadProps) (env : N8n.Env) (st : State) :
  NoDup (map id (uploadFiles st)) ->
  uploadFiles (startUpload props env st) =
    map (fun f =>
           match status f with
           | Pending =>
             {| file := file f; id := id f; status := Uploading;
                progress := 0; error := error f; title := title f |}
           | Uploading | Success | Error => f
           end)
        (uploadFiles st)
  /\ length (inflight (startUpload props env st)) =
     (length (inflight st) + pendingCount (uploadFiles st))%nat.
Proof.
  intros Hnd. split.
  - rewrite startUpload_uploadFiles. apply map_ext_in. intros f Hf.
    destruct (includes (map id (filter is_pending (uploadFiles st))) (id f))
      eqn:Hinc.
    + apply includes_In in Hinc. apply in_map_iff in Hinc.
      destruct Hinc as [g [Hid Hg]]. apply filter_In in Hg.
      destruct Hg as [Hg Hpend].
      assert (g = f) by (eapply unique_id_names_one; eauto). subst g.
      unfold is_pending in Hpend.
      destruct (status f); try discriminate. reflexivity.
    + destruct (status f) eqn:Hst; try reflexivity.
      exfalso.
      assert (includes (map id (filter is_pending (uploadFiles st))) (id f)
              = true) as Hyes.
      { apply includes_In. apply in_map. apply filter_In.
        split; [exact Hf |]. unfold is_pending. rewrite Hst. reflexivity. }
      congruence.
  - unfold startUpload, pendingCount.
    apply (startUpload_fold props env
             (filter is_pending (uploadFiles st)) st).
Qed.

Lemma startUpload_moves_exactly_the_pending_witness :
  map status
    (uploadFiles
       (startUpload Fixtures.props
          (Fixtures.world None (Normal Fixtures.http200))
          (handleFiles Fixtures.ticking
             [Fixtures.photo_png; Fixtures.setup_exe] initial)))
  = [Uploading; Error].
Proof.
  rewrite (proj1 (@startUpload_moves_exactly_the_pending Fixtures.props
             (Fixtures.world None (Normal Fixtures.http200))
             (handleFiles Fixtures.ticking
                [Fixtures.photo_png; Fixtures.setup_exe] initial)
             ltac:(vm_compute; repeat constructor; cbn;
                   intuition discriminate))).
  reflexivity.
Defined.

(** C2 as first stated fails: when two entries carry the same
    identifier, starting the pending one also moves the other, here an
    entry in error. *)
Lemma startUpload_moves_error_entry_sharing_an_id :
  map status (uploadFiles Fixtures.collided) = [Pending; Error]
  /\ map id (uploadFiles Fixtures.collided) =
     ["1700000000000-0.5"; "1700000000000-0.5"]
  /\ map status
       (uploadFiles
          (startUpload Fixtures.props
             (Fixtures.world None (Normal Fixtures.http200))
             Fixtures.collided))
     = [Uploading; Uploading].
Proof.
  repeat split.
Qed.

(** ** One upload attempt *)

Lemma setUploadFiles_id st : setUploadFiles (fun l => l) st = st.
Proof. destruct st. reflexivity. Qed.

Lemma interval_fires_set h t st :
  find (fun x => (handle x =? h)%nat) (intervals st) = Some t ->
  interval_fires h st = setUploadFiles (tick (target t)) st.
Proof.
  intros H. unfold interval_fires. rewrite H. reflexivity.
Qed.

Lemma interval_fires_iter h t k st :
  find (fun x => (handle x =? h)%nat) (intervals st) = Some t ->
  Nat.iter k (interval_fires h) st =
  setUploadFiles (fun l => Nat.iter k (tick (target t)) l) st.
Proof.
  intros H. induction k as [| k IH].
  - symmetry. apply setUploadFiles_id.
  - rewrite Nat.iter_succ, IH. erewrite interval_fires_set by exact H. reflexivity.
Qed.

(** A cleared interval no longer fires. *)
Lemma interval_fires_cleared h k st :
  find (fun x => (handle x =? h)%nat) (intervals st) = None ->
  Nat.iter k (interval_fires h) st = st.
Proof.
  intros H. induction k as [| k IH].
  - reflexivity.
  - rewrite Nat.iter_succ, IH. unfold interval_fires. rewrite H. reflexivity.
Qed.

Lemma find_after_clear h (l : list Interval) :
  find (fun x => (handle x =? h)%nat)
       (filter (fun x => negb (handle x =? h)%nat) l) = None.
Proof.
  induction l as [| x l IH]; cbn [filter find]; [reflexivity |].
  destruct (handle x =? h)%nat eqn:E; cbn [negb]; [exact IH |].
  cbn [find]. rewrite E. exact IH.
Qed.

(** Progress after [k] firings of the interval of a started attempt. *)
Lemma tick_iter_after_start i k (l : list UploadFile) :
  Nat.iter k (tick i) (mark_uploading i l) =
  map (fun f =>
         if id f =? i
         then {| file := file f; id := id f; status := Uploading;
                 progress := Z.min (10 * Z.of_nat k) 90;
                 error := error f; title := title f |}
         else f) l.
Proof.
  induction k as [| k IH].
  - reflexivity.
  - rewrite Nat.iter_succ, IH. unfold tick. rewrite map_map.
    apply map_ext. intros f.
    destruct (id f =? i) eqn:E.
    + cbn [id progress]. rewrite E. cbn [andb].
      destruct (Z.ltb_spec (Z.min (10 * Z.of_nat k) 90) 90) as [Hlt | Hge];
        unfold to_next_progress; cbn [file id status progress error title];
        f_equal; lia.
    + rewrite E. reflexivity.
Qed.

Lemma nth_error_last {A} (l : list A) (a : A) :
  nth_error (l ++ [a]) (length l) = Some a.
Proof.
  rewrite nth_error_app2 by lia. rewrite Nat.sub_diag. reflexivity.
Qed.

Lemma drop_last {A} (l : list A) (a : A) :
  (firstn (length l) (l ++ [a]) ++ skipn (S (length l)) (l ++ [a]))%list = l.
Proof.
  rewrite firstn_app, Nat.sub_diag, firstn_all. cbn [firstn].
  rewrite skipn_all2 by (rewrite length_app; cbn; lia).
  rewrite !app_nil_r. reflexivity.
Qed.

(** The state in which the attempt started on [u] is resumed, after [k]
    firings of its interval. *)
Lemma uploadFile_unfold props env k u st :
  exists result,
    fst (N8n.uploadDocumentToN8n env (file u) (projectId props) (title u)
           (userId props) (network st)) = Normal result /\
    uploadFile props env k u st =
      uploadFile_resume
        {| entry := u; timer := nextHandle st; outcome := Normal result |}
        {| uploadFiles := Nat.iter k (tick (id u))
                            (mark_uploading (id u) (uploadFiles st));
           intervals := {| handle := nextHandle st; target := id u;
                           delay := 300 |} :: intervals st;
           nextHandle := S (nextHandle st);
           inflight := inflight st;
           network := (network st ++
                        [N8n.HttpPost (N8n.uploadUrl env)
                           (N8n.FormData (file u) (projectId props)
                              (userId props) (title u))])%list;
           readings := readings st |}.
Proof.
  destruct (uploadFile_start_eq props env u st) as [result [Hres Heq]].
  exists result. split; [exact Hres |].
  unfold uploadFile. rewrite Heq.
  erewrite interval_fires_iter
    by (cbn [intervals find handle]; rewrite Nat.eqb_refl; reflexivity).
  unfold settle. cbn [inflight setUploadFiles target uploadFiles intervals
                      nextHandle network readings].
  rewrite nth_error_last, drop_last. reflexivity.
Qed.

Lemma marked_entries_have (P : UploadFile -> Prop) (g : UploadFile -> UploadFile)
    (i : string) (l : list UploadFile) :
  (forall f, P (g f)) ->
  forall f', In f' (map (fun f => if id f =? i then g f else f) l) ->
             (forall f, id (g f) = id f) -> id f' = i -> P f'.
Proof.
  intros Hg f' Hin Hid Hi. apply in_map_iff in Hin.
  destruct Hin as [f [Hf _]]. destruct (id f =? i) eqn:E.
  - subst f'. apply Hg.
  - subst f'. apply String.eqb_neq in E. contradiction.
Qed.

(** C3.  An attempt whose ingestion call returns a success result ends,
    after any number of firings of its interval, with the interval cleared
    (further firings change nothing) and with the entry of that identifier
    in status success and progress 100, its other fields and every other
    entry as before the attempt. *)
Theorem upload_success_ends_in_success
    (props : FileUploadProps) (env : N8n.Env) (k : nat)
    (u : UploadFile) (st : State) (r : N8n.N8nChatResponse) :
  fst (N8n.uploadDocumentToN8n env (file u) (projectId props) (title u)
         (userId props) (network st)) = Normal r ->
  N8n.success r = true ->
  uploadFiles (uploadFile props env k u st) =
    map (fun f =>
           if id f =? id u
           then {| file := file f; id := id f; status := Success;
                   progress := 100; error := error f; title := title f |}
           else f)
        (uploadFiles st)
  /\ (forall f, In f (uploadFiles (uploadFile props env k u st)) ->
                id f = id u -> status f = Success /\ progress f = 100%Z)
  /\ (forall n, Nat.iter n (interval_fires (nextHandle st))
                  (uploadFile props env k u st)
                = uploadFile props env k u st)
  /\ inflight (uploadFile props env k u st) = inflight st
  /\ (forall (a : Attempt) (st0 : State),
        outcome a = Normal r ->
        uploadFiles (uploadFile_resume a st0) =
          map (fun f =>
                 if id f =? id (entry a)
                 then {| file := file f; id := id f; status := Success;
                         progress := 100; error := error f;
                         title := title f |}
                 else f)
              (uploadFiles st0)
        /\ find (fun x => (handle x =? timer a)%nat)
                (intervals (uploadFile_resume a st0)) = None).
Proof.
  intros Hres Hok.
  destruct (uploadFile_unfold props env k u st) as [result [Hres' Heq]].
  assert (result = r) by congruence. subst result.
  assert (forall (a : Attempt) (st0 : State),
             outcome a = Normal r ->
             uploadFiles (uploadFile_resume a st0) =
               map (fun f => if id f =? id (entry a) then to_success f else f)
                   (uploadFiles st0)
             /\ find (fun x => (handle x =? timer a)%nat)
                     (intervals (uploadFile_resume a st0)) = None) as Hany.
  { intros a st0 Ha. unfold uploadFile_resume. rewrite Ha, Hok.
    split; [reflexivity |]. cbn [setUploadFiles clearInterval intervals].
    apply find_after_clear. }
  assert (uploadFiles (uploadFile props env k u st) =
          map (fun f => if id f =? id u then to_success f else f)
              (uploadFiles st)) as Hfiles.
  { rewrite Heq. unfold uploadFile_resume. cbn [outcome entry timer].
    rewrite Hok. cbn [setUploadFiles clearInterval uploadFiles].
    rewrite tick_iter_after_start. unfold mark_success. rewrite map_map.
    apply map_ext. intros f. destruct (id f =? id u) eqn:E.
    - cbn [id]. rewrite E. reflexivity.
    - rewrite E. reflexivity. }
  split; [exact Hfiles |].
  split.
  { intros f Hin Hid. rewrite Hfiles in Hin.
    apply (@marked_entries_have
             (fun f => status f = Success /\ progress f = 100%Z)
             to_success (id u) (uploadFiles st));
      [intros f0; split; reflexivity | exact Hin | reflexivity | exact Hid]. }
  split.
  - intros n. apply interval_fires_cleared.
    rewrite Heq. unfold uploadFile_resume. cbn [outcome entry timer].
    rewrite Hok. cbn [setUploadFiles clearInterval intervals].
    apply find_after_clear.
  - split; [| exact Hany].
    rewrite Heq. unfold uploadFile_resume. cbn [outcome entry timer].
    rewrite Hok. reflexivity.
Qed.

Lemma upload_success_ends_in_success_witness :
  map (fun f => (status f, progress f))
    (uploadFiles
       (uploadFile Fixtures.props
          (Fixtures.world None (Normal Fixtures.http200)) 3
          Fixtures.photo_entry Fixtures.queued))
  = [(Success, 100%Z)].
Proof.
  rewrite (proj1 (@upload_success_ends_in_success Fixtures.props
             (Fixtures.world None (Normal Fixtures.http200)) 3
             Fixtures.photo_entry Fixtures.queued
             {| N8n.success := true;
                N8n.response := Some (JsString "stored");
                N8n.error := None |}
             eq_refl eq_refl)).
  reflexivity.
Defined.

(** C4, amended.  An attempt whose ingestion call returns a failure result
    with message [M] ends with the interval cleared and with the entry of
    that identifier in status error and progress 0; its [error] is [M]
    when [M] is not empty and the fixed text of line 105 when it is.  The
    attempt sent one request, leaves nothing suspended, and its entry is
    not pending, so a later [startUpload] does not pick it up again. *)
Theorem upload_failure_ends_in_error
    (props : FileUploadProps) (env : N8n.Env) (k : nat)
    (u : UploadFile) (st : State) (r : N8n.N8nChatResponse) (M : string) :
  fst (N8n.uploadDocumentToN8n env (file u) (projectId props) (title u)
         (userId props) (network st)) = Normal r ->
  N8n.success r = false ->
  N8n.error r = Some M ->
  uploadFiles (uploadFile props env k u st) =
    map (fun f =>
           if id f =? id u
           then {| file := file f; id := id f; status := Error;
                   progress := 0;
                   error := Some (if M =? "" then "上传失败" else M);
                   title := title f |}
           else f)
        (uploadFiles st)
  /\ (forall f, In f (uploadFiles (uploadFile props env k u st)) ->
                id f = id u ->
                status f = Error /\ progress f = 0%Z /\ is_pending f = false
                /\ (M <> "" -> error f = Some M))
  /\ (forall n, Nat.iter n (interval_fires (nextHandle st))
                  (uploadFile props env k u st)
                = uploadFile props env k u st)
  /\ inflight (uploadFile props env k u st) = inflight st
  /\ network (uploadFile props env k u st) =
     (network st ++
       [N8n.HttpPost (N8n.uploadUrl env)
          (N8n.FormData (file u) (projectId props) (userId props)
             (title u))])%list
  /\ (forall (a : Attempt) (st0 : State),
        outcome a = Normal r ->
        uploadFiles (uploadFile_resume a st0) =
          map (fun f =>
                 if id f =? id (entry a)
                 then {| file := file f; id := id f; status := Error;
                         progress := 0;
                         error := Some (if M =? "" then "上传失败" else M);
                         title := title f |}
                 else f)
              (uploadFiles st0)
        /\ find (fun x => (handle x =? timer a)%nat)
                (intervals (uploadFile_resume a st0)) = None
        /\ network (uploadFile_resume a st0) = network st0).
Proof.
  intros Hres Hok HM.
  destruct (uploadFile_unfold props env k u st) as [result [Hres' Heq]].
  assert (result = r) by congruence. subst result.
  assert (or_else (N8n.error r) "上传失败"
          = if M =? "" then "上传失败" else M) as Hmsg.
  { rewrite HM. unfold or_else, truthy_opt, truthy_string.
    destruct (M =? ""); reflexivity. }
  assert (uploadFiles (uploadFile props env k u st) =
          map (fun f => if id f =? id u
                        then to_error (if M =? "" then "上传失败" else M) f
                        else f)
              (uploadFiles st)) as Hfiles.
  { rewrite Heq. unfold uploadFile_resume, uploadFile_catch.
    cbn [outcome entry timer]. rewrite Hok.
    cbn [setUploadFiles clearInterval uploadFiles message_or].
    rewrite Hmsg, tick_iter_after_start. unfold mark_error. rewrite map_map.
    apply map_ext. intros f. destruct (id f =? id u) eqn:E.
    - cbn [id]. rewrite E. reflexivity.
    - rewrite E. reflexivity. }
  split; [exact Hfiles |].
  split.
  { intros f Hin Hid. rewrite Hfiles in Hin.
    apply (@marked_entries_have
             (fun f => status f = Error /\ progress f = 0%Z
                       /\ is_pending f = false
                       /\ (M <> "" -> error f = Some M))
             (to_error (if M =? "" then "上传失败" else M))
             (id u) (uploadFiles st));
      [| exact Hin | reflexivity | exact Hid].
    intros f0. repeat split. intros HMne. cbn [error to_error].
    apply String.eqb_neq in HMne. rewrite HMne. reflexivity. }
  split.
  { intros n. apply interval_fires_cleared.
    rewrite Heq. unfold uploadFile_resume, uploadFile_catch.
    cbn [outcome entry timer]. rewrite Hok.
    cbn [setUploadFiles clearInterval intervals].
    apply find_after_clear. }
  split; [| split].
  - rewrite Heq. unfold uploadFile_resume, uploadFile_catch.
    cbn [outcome entry timer]. rewrite Hok. reflexivity.
  - rewrite Heq. unfold uploadFile_resume, uploadFile_catch.
    cbn [outcome entry timer]. rewrite Hok. reflexivity.
  - intros a st0 Ha. unfold uploadFile_resume, uploadFile_catch.
    rewrite Ha, Hok. cbn [message_or]. rewrite Hmsg.
    split; [reflexivity |]. split; [| reflexivity].
    cbn [setUploadFiles clearInterval intervals]. apply find_after_clear.
Qed.

Lemma upload_failure_ends_in_error_witness :
  map (fun f => (status f, progress f, error f))
    (uploadFiles
       (uploadFile Fixtures.props
          (Fixtures.world None (Normal Fixtures.http404)) 3
          Fixtures.photo_entry Fixtures.queued))
  = [(Error, 0%Z, Some "文件上传失败: 404 Not Found")].
Proof.
  rewrite (proj1 (@upload_failure_ends_in_error Fixtures.props
             (Fixtures.world None (Normal Fixtures.http404)) 3
             Fixtures.photo_entry Fixtures.queued
             {| N8n.success := false;
                N8n.response := None;
                N8n.error := Some "文件上传失败: 404 Not Found" |}
             "文件上传失败: 404 Not Found"
             eq_refl eq_refl eq_refl)).
  reflexivity.
Defined.

(** C4 as first stated fails for the empty message: a transport error
    whose [Error] carries no text makes the ingestion call return the
    failure message [""], and the entry shows the fixed text instead. *)
Lemma upload_failure_with_empty_message :
  fst (N8n.uploadDocumentToN8n
         (Fixtures.world None (Abrupt (ErrorObj "")))
         Fixtures.photo_png "project-1" "photo.png" "user-1" [])
    = Normal {| N8n.success := false; N8n.response := None;
                N8n.error := Some "" |}
  /\ map (fun f => (status f, error f))
       (uploadFiles
          (uploadFile Fixtures.props
             (Fixtures.world None (Abrupt (ErrorObj ""))) 0
             Fixtures.photo_entry Fixtures.queued))
     = [(Error, Some "上传失败")]
  /\ Some "上传失败" <> Some "".
Proof.
  repeat split. discriminate.
Qed.

(** ** The shape of every transition *)

Lemma map_unless_false {A} (g : A -> A) (l : list A) :
  map (fun f => if false then g f else f) l = l.
Proof. apply map_id. Qed.

(** An event either appends the new entries, or filters by identifier, or
    rewrites some entries with one of the five record updates of the
    source. *)
Lemma step_shape props env o (e : Event) (st : State) :
  match e with
  | FilesChosen files =>
    uploadFiles (step props env o e st) =
    (uploadFiles st ++ newFiles o (readings st) files)%list
  | RemoveClicked i =>
    uploadFiles (step props env o e st) =
    filter (fun f => negb (id f =? i)) (uploadFiles st)
  | _ =>
    exists (c : UploadFile -> bool) (g : UploadFile -> UploadFile),
      uploadFiles (step props env o e st) =
        map (fun f => if c f then g f else f) (uploadFiles st)
      /\ (g = to_uploading
          \/ (g = to_next_progress
              /\ forall f, c f = true -> (progress f < 90)%Z)
          \/ (g = to_success /\ takes_success_branch e st = true)
          \/ (exists m, g = to_error m)
          \/ (exists i t, g = to_title t /\ e = TitleEdited i t))
  end.
Proof.
  destruct e as [files | | h | k | i | i t]; cbn [step].
  - reflexivity.
  - eexists _, to_uploading.
    split; [apply startUpload_uploadFiles | auto].
  - unfold interval_fires.
    destruct (find (fun x => (handle x =? h)%nat) (intervals st)) as [t |].
    + exists (fun f => (id f =? target t) && (progress f <? 90)%Z),
        to_next_progress.
      split; [reflexivity |]. right; left. split; [reflexivity |].
      intros f Hc. apply andb_true_iff in Hc. destruct Hc as [_ Hc].
      apply Z.ltb_lt. exact Hc.
    + exists (fun _ => false), to_uploading.
      split; [symmetry; apply (@map_unless_false _ to_uploading) | auto].
  - unfold takes_success_branch, settle.
    destruct (nth_error (inflight st) k) as [a |].
    + unfold uploadFile_resume, uploadFile_catch.
      destruct (outcome a) as [result | err].
      * destruct (N8n.success result).
        -- exists (fun f => id f =? id (entry a)), to_success.
           split; [reflexivity | auto].
        -- eexists (fun f => id f =? id (entry a)), (to_error _).
           split; [reflexivity | eauto 6].
      * eexists (fun f => id f =? id (entry a)), (to_error _).
        split; [reflexivity | eauto 6].
    + exists (fun _ => false), to_uploading.
      split; [symmetry; apply (@map_unless_false _ to_uploading) | auto].
  - reflexivity.
  - exists (fun f => id f =? i), (to_title t).
    split; [reflexivity | eauto 8].
Qed.

Lemma step_readings props env o (e : Event) (st : State) :
  readings (step props env o e st) =
  match e with
  | FilesChosen files => (readings st + length files)%nat
  | _ => readings st
  end.
Proof.
  destruct e as [files | | h | k | i | i t]; cbn [step].
  - reflexivity.
  - unfold startUpload.
    generalize (filter is_pending (uploadFiles st)) as us.
    intros us. revert st. induction us as [| u us IH]; intros st.
    + reflexivity.
    + cbn [fold_left]. rewrite IH.
      destruct (uploadFile_start_eq props env u st) as [r [_ ->]].
      reflexivity.
  - unfold interval_fires.
    destruct (find (fun x => (handle x =? h)%nat) (intervals st));
      reflexivity.
  - unfold settle. destruct (nth_error (inflight st) k) as [a |];
      [| reflexivity].
    unfold uploadFile_resume, uploadFile_catch.
    destruct (outcome a) as [result | err];
      [destruct (N8n.success result) |]; reflexivity.
  - reflexivity.
  - reflexivity.
Qed.

(** ** The progress simulation *)

(** Close a goal about an event that rewrites entries, from the shape of
    the transition and a fact proved for every such rewriting. *)
Ltac by_rewriting Hshape Hmap :=
  let c := fresh "c" in
  let g := fresh "g" in
  let Hcg := fresh "Hcg" in
  destruct Hshape as [c [g Hcg]]; exact (Hmap c g Hcg).






(** ** Titles *)

(** C7, amended.  Every event other than a title edit leaves the title
    (and the identifier and the file) of every entry as it was, position
    by position; choosing files only appends and removing only filters.
    [updateFileTitle] itself rewrites the title of the entry with the
    given identifier whatever its status: the only guard is the title
    input of the dialog, disabled exactly for uploading and succeeded
    entries. *)
Theorem titles_change_only_through_updateFileTitle
    (props : FileUploadProps) (env : N8n.Env) (o : Oracle)
    (e : Event) (st : State) (i newTitle : string) (f : UploadFile) :
  (forall j t, e <> TitleEdited j t) ->
  match e with
  | FilesChosen files =>
    uploadFiles (step props env o e st) =
    (uploadFiles st ++ newFiles o (readings st) files)%list
  | RemoveClicked j =>
    uploadFiles (step props env o e st) =
    filter (fun f => negb (id f =? j)) (uploadFiles st)
  | _ =>
    map (fun f => (id f, file f, title f)) (uploadFiles (step props env o e st))
    = map (fun f => (id f, file f, title f)) (uploadFiles st)
  end
  /\ uploadFiles (updateFileTitle i newTitle st) =
     map (fun f =>
            if id f =? i
            then {| file := file f; id := id f; status := status f;
                    progress := progress f; error := error f;
                    title := newTitle |}
            else f)
         (uploadFiles st)
  /\ (titleInputDisabled f = true <->
      status f = Uploading \/ status f = Success).
Proof.
  intros Hnot.
  split; [| split].
  - pose proof (step_shape props env o e st) as Hshape.
    assert (forall (c : UploadFile -> bool) (g : UploadFile -> UploadFile),
               uploadFiles (step props env o e st) =
                 map (fun f => if c f then g f else f) (uploadFiles st) /\
               (g = to_uploading
                \/ (g = to_next_progress
                    /\ forall f, c f = true -> (progress f < 90)%Z)
                \/ (g = to_success /\ takes_success_branch e st = true)
                \/ (exists m, g = to_error m)
                \/ (exists i t, g = to_title t /\ e = TitleEdited i t)) ->
               map (fun f => (id f, file f, title f))
                   (uploadFiles (step props env o e st))
               = map (fun f => (id f, file f, title f)) (uploadFiles st))
      as Hmap.
    { intros c g [Heq Hg]. rewrite Heq, map_map. apply map_ext. intros f0.
      destruct (c f0); [| reflexivity].
      destruct Hg as [-> | [[-> _] | [[-> _] | [[m ->] | [j [t [_ He]]]]]]];
        try reflexivity.
      exfalso. exact (Hnot j t He). }
    destruct e as [files | | h | k | j | j t].
    + exact Hshape.
    + by_rewriting Hshape Hmap.
    + by_rewriting Hshape Hmap.
    + by_rewriting Hshape Hmap.
    + exact Hshape.
    + by_rewriting Hshape Hmap.
  - reflexivity.
  - unfold titleInputDisabled. destruct (status f); cbn;
      split; intros H; try reflexivity; try discriminate; auto;
      destruct H; discriminate.
Qed.

Lemma titles_change_only_through_updateFileTitle_witness :
  map (fun f => (id f, file f, title f))
    (uploadFiles
       (step Fixtures.props (Fixtures.world None (Normal Fixtures.http200))
          Fixtures.ticking StartClicked Fixtures.queued))
  = [("1700000000000-0.5", Fixtures.photo_png, "photo.png")].
Proof.
  rewrite (proj1 (@titles_change_only_through_updateFileTitle
             Fixtures.props (Fixtures.world None (Normal Fixtures.http200))
             Fixtures.ticking StartClicked Fixtures.queued
             "" "" Fixtures.photo_entry
             ltac:(intros j t; discriminate))).
  reflexivity.
Defined.

(** C7 as first stated fails: the title of an uploading entry is changed
    by [updateFileTitle]. *)
Lemma updateFileTitle_renames_an_uploading_entry :
  map (fun f => (status f, title f)) (uploadFiles Fixtures.started)
    = [(Uploading, "photo.png")]
  /\ map (fun f => (status f, title f))
       (uploadFiles
          (updateFileTitle "1700000000000-0.5" "renamed" Fixtures.started))
     = [(Uploading, "renamed")]
  /\ "renamed" <> "photo.png".
Proof.
  repeat split. discriminate.
Qed.

(** ** Identifiers *)

(** The digits of a number hold no dash, so the text before the first
    dash of an identifier is the clock reading and the rest is the random
    number. *)
Lemma digits_dash_inj (d1 d2 : Decimal.uint) (r1 r2 : string) :
  NilEmpty.string_of_uint d1 ++ "-" ++ r1 =
  NilEmpty.string_of_uint d2 ++ "-" ++ r2 ->
  d1 = d2 /\ r1 = r2.
Proof.
  revert d2. induction d1 as [| d1 IH | d1 IH | d1 IH | d1 IH | d1 IH
                              | d1 IH | d1 IH | d1 IH | d1 IH | d1 IH];
    intros [| d2 | d2 | d2 | d2 | d2 | d2 | d2 | d2 | d2 | d2];
    cbn [NilEmpty.string_of_uint append]; intros H;
    try discriminate H;
    try (injection H as H; destruct (IH d2 H) as [-> ->]; split; reflexivity).
  injection H as H. split; [reflexivity | exact H].
Qed.

Lemma new_id_inj (r1 r2 : Reading) : new_id r1 = new_id r2 -> r1 = r2.
Proof.
  destruct r1 as [n1 x1], r2 as [n2 x2]. unfold new_id, String_of_N.
  cbn [Date_now Math_random]. intros H.
  apply digits_dash_inj in H. destruct H as [Hn Hx].
  apply Unsigned.to_uint_inj in Hn. subst. reflexivity.
Qed.

Lemma newFiles_ids o n files :
  map id (newFiles o n files) =
  map (fun m => new_id (o m)) (seq n (length files)).
Proof.
  revert n. induction files as [| f files IH]; intros n;
    cbn [newFiles map length seq id].
  - reflexivity.
  - rewrite IH. reflexivity.
Qed.

Lemma NoDup_map_filter {A B} (h : A -> B) (p : A -> bool) (l : list A) :
  NoDup (map h l) -> NoDup (map h (filter p l)).
Proof.
  induction l as [| x l IH]; cbn [map filter]; intros Hnd.
  - constructor.
  - inversion Hnd as [| ? ? Hnotin Hnd']; subst.
    destruct (p x); cbn [map]; [| apply IH; exact Hnd'].
    constructor; [| apply IH; exact Hnd'].
    intros Hin. apply Hnotin. apply in_map_iff in Hin.
    destruct Hin as [y [Hy Hin]]. apply filter_In in Hin.
    rewrite <- Hy. apply in_map. apply Hin.
Qed.

(** Readings are only ever taken, never given back. *)
Lemma run_readings_mono props env o (events : list Event) (st : State) :
  (readings st <= readings (run props env o events st))%nat.
Proof.
  unfold run. revert st. induction events as [| e events IH]; intros st.
  - apply Nat.le_refl.
  - cbn [fold_left]. eapply Nat.le_trans; [| apply IH].
    rewrite step_readings. destruct e; lia.
Qed.

(** Distinct readings keep the identifiers distinct through every event;
    each identifier in the collection was built from a reading already
    taken. *)
Lemma step_keeps_ids_distinct props env o (e : Event) (st : State) :
  (forall m n, (m < readings (step props env o e st))%nat ->
               (n < readings (step props env o e st))%nat ->
               o m = o n -> m = n) ->
  NoDup (map id (uploadFiles st)) ->
  (forall f, In f (uploadFiles st) ->
             exists n, (n < readings st)%nat /\ id f = new_id (o n)) ->
  NoDup (map id (uploadFiles (step props env o e st)))
  /\ (forall f, In f (uploadFiles (step props env o e st)) ->
                exists n, (n < readings (step props env o e st))%nat
                          /\ id f = new_id (o n)).
Proof.
  intros Hinj Hnd Hfrom.
  pose proof (step_shape props env o e st) as Hshape.
  pose proof (step_readings props env o e st) as Hread.
  assert (forall (c : UploadFile -> bool) (g : UploadFile -> UploadFile),
             uploadFiles (step props env o e st) =
               map (fun f => if c f then g f else f) (uploadFiles st) /\
             (g = to_uploading
              \/ (g = to_next_progress
                  /\ forall f, c f = true -> (progress f < 90)%Z)
              \/ (g = to_success /\ takes_success_branch e st = true)
              \/ (exists m, g = to_error m)
              \/ (exists i t, g = to_title t /\ e = TitleEdited i t)) ->
             readings (step props env o e st) = readings st ->
             NoDup (map id (uploadFiles (step props env o e st)))
             /\ (forall f, In f (uploadFiles (step props env o e st)) ->
                           exists n,
                             (n < readings (step props env o e st))%nat
                             /\ id f = new_id (o n))) as Hmap.
  { intros c g [Heq Hg] Hr.
    assert (forall f0, id (if c f0 then g f0 else f0) = id f0) as Hid.
    { intros f0. destruct (c f0); [| reflexivity].
      destruct Hg as [-> | [[-> _] | [[-> _] | [[m ->] | [j [t [-> _]]]]]]];
        reflexivity. }
    rewrite Heq, Hr. split.
    - rewrite map_map. erewrite map_ext by apply Hid. exact Hnd.
    - intros f Hin. apply in_map_iff in Hin. destruct Hin as [f0 [<- Hf0]].
      rewrite Hid. apply Hfrom. exact Hf0. }
  destruct e as [files | | h | k | i | i t].
  - rewrite Hread in Hinj. rewrite Hshape, Hread. split.
    + rewrite map_app. apply NoDup_app.
      * exact Hnd.
      * rewrite newFiles_ids. apply NoDup_map_NoDup_ForallPairs.
        -- intros m n Hm Hn Heq. apply in_seq in Hm. apply in_seq in Hn.
           apply Hinj; [lia | lia | apply new_id_inj, Heq].
        -- apply seq_NoDup.
      * intros x Hold Hnew. apply in_map_iff in Hold.
        destruct Hold as [f [<- Hf]]. destruct (Hfrom f Hf) as [n [Hn Hidn]].
        rewrite newFiles_ids in Hnew. apply in_map_iff in Hnew.
        destruct Hnew as [m [Hm Hin]]. apply in_seq in Hin.
        rewrite Hidn in Hm. apply new_id_inj in Hm.
        apply Hinj in Hm; lia.
    + intros f Hin. apply in_app_or in Hin. destruct Hin as [Hin | Hin].
      * destruct (Hfrom f Hin) as [n [Hn Hidn]]. exists n.
        split; [lia | exact Hidn].
      * apply (in_map id) in Hin. rewrite newFiles_ids in Hin.
        apply in_map_iff in Hin. destruct Hin as [m [Hm Hin]].
        apply in_seq in Hin. exists m. split; [lia | symmetry; exact Hm].
  - by_rewriting Hshape (fun c g H => Hmap c g H Hread).
  - by_rewriting Hshape (fun c g H => Hmap c g H Hread).
  - by_rewriting Hshape (fun c g H => Hmap c g H Hread).
  - rewrite Hshape, Hread. split.
    + apply NoDup_map_filter. exact Hnd.
    + intros f Hin. apply filter_In in Hin. apply Hfrom, Hin.
  - by_rewriting Hshape (fun c g H => Hmap c g H Hread).
Qed.

(** C8, amended.  Whatever the user does, the identifiers in the
    collection are pairwise distinct as long as no two of the readings of
    clock and random source taken so far are the same pair; every
    identifier is the clock reading, a dash and the random number of one
    of those readings, and two readings give one identifier only when
    they are the same reading. *)
Theorem ids_distinct_when_readings_distinct
    (props : FileUploadProps) (env : N8n.Env) (o : Oracle)
    (events : list Event) :
  (forall m n,
      (m < readings (run props env o events initial))%nat ->
      (n < readings (run props env o events initial))%nat ->
      o m = o n -> m = n) ->
  NoDup (map id (uploadFiles (run props env o events initial)))
  /\ (forall f, In f (uploadFiles (run props env o events initial)) ->
        exists n,
          (n < readings (run props env o events initial))%nat /\
          id f = String_of_N (Date_now (o n)) ++ "-" ++ Math_random (o n))
  /\ (forall r1 r2 : Reading, new_id r1 = new_id r2 <-> r1 = r2).
Proof.
  intros Hinj.
  assert (forall st,
             (forall m n,
                 (m < readings (run props env o events st))%nat ->
                 (n < readings (run props env o events st))%nat ->
                 o m = o n -> m = n) ->
             NoDup (map id (uploadFiles st)) ->
             (forall f, In f (uploadFiles st) ->
                        exists n, (n < readings st)%nat
                                  /\ id f = new_id (o n)) ->
             NoDup (map id (uploadFiles (run props env o events st)))
             /\ (forall f, In f (uploadFiles (run props env o events st)) ->
                   exists n, (n < readings (run props env o events st))%nat
                             /\ id f = new_id (o n))) as Hrun.
  { clear Hinj.
    induction events as [| e events IH]; intros st Hinj Hnd Hfrom.
    - split; assumption.
    - change (run props env o (e :: events) st)
        with (run props env o events (step props env o e st)) in *.
      pose proof (run_readings_mono props env o events
                    (step props env o e st)) as Hmono.
      destruct (@step_keeps_ids_distinct props env o e st) as [Hnd' Hfrom'].
      + intros m n Hm Hn. apply Hinj; lia.
      + exact Hnd.
      + exact Hfrom.
      + apply IH; assumption. }
  destruct (Hrun initial Hinj) as [Hnd Hfrom].
  - constructor.
  - intros f [].
  - split; [exact Hnd | split; [exact Hfrom |]].
    intros r1 r2. split; [apply new_id_inj | intros ->; reflexivity].
Qed.

Lemma ids_distinct_when_readings_distinct_witness :
  NoDup
    (map id
       (uploadFiles
          (run Fixtures.props (Fixtures.world None (Normal Fixtures.http200))
             Fixtures.ticking
             [FilesChosen [Fixtures.photo_png; Fixtures.setup_exe];
              StartClicked;
              FilesChosen [Fixtures.report_pdf]]
             initial))).
Proof.
  refine (proj1 (@ids_distinct_when_readings_distinct Fixtures.props
                   (Fixtures.world None (Normal Fixtures.http200))
                   Fixtures.ticking
                   [FilesChosen [Fixtures.photo_png; Fixtures.setup_exe];
                    StartClicked;
                    FilesChosen [Fixtures.report_pdf]] _)).
  intros m n _ _ H. unfold Fixtures.ticking in H.
  assert (1700000000000 + N.of_nat m = 1700000000000 + N.of_nat n)%N
    as H' by congruence.
  lia.
Defined.

(** C8 as first stated fails: two files chosen while the clock shows the
    same millisecond and the random source repeats get one identifier. *)
Lemma same_reading_same_id :
  map id (uploadFiles Fixtures.collided) =
    ["1700000000000-0.5"; "1700000000000-0.5"]
  /\ map (fun f => name (file f)) (uploadFiles Fixtures.collided) =
     ["photo.png"; "setup.exe"]
  /\ ~ NoDup (map id (uploadFiles Fixtures.collided)).
Proof.
  split; [reflexivity | split; [reflexivity |]].
  intros H. inversion H as [| x l Hnotin _]. apply Hnotin.
  left. reflexivity.
Qed.

(** ** Scenarios *)

(** A PDF of 60 MiB is refused for its size and nothing is pending. *)
Example oversize_pdf_is_refused :
  map (fun f => (status f, error f))
    (uploadFiles (handleFiles Fixtures.ticking [Fixtures.huge_pdf] initial))
    = [(Error, Some "文件大小不能超过50MB")]
  /\ pendingCount
       (uploadFiles (handleFiles Fixtures.ticking [Fixtures.huge_pdf] initial))
     = 0%nat.
Proof. split; reflexivity. Qed.

(** Two valid files are queued, started and stored. *)
Example two_files_are_stored :
  map status
    (uploadFiles
       (run Fixtures.props (Fixtures.world None (Normal Fixtures.http200))
          Fixtures.ticking
          [FilesChosen [Fixtures.photo_png; Fixtures.notes_txt]] initial))
    = [Pending; Pending]
  /\ map status
       (uploadFiles
          (run Fixtures.props (Fixtures.world None (Normal Fixtures.http200))
             Fixtures.ticking
             [FilesChosen [Fixtures.photo_png; Fixtures.notes_txt];
              StartClicked] initial))
     = [Uploading; Uploading]
  /\ (let final :=
        uploadFiles
          (run Fixtures.props (Fixtures.world None (Normal Fixtures.http200))
             Fixtures.ticking
             [FilesChosen [Fixtures.photo_png; Fixtures.notes_txt];
              StartClicked; IntervalFired 0; UploadSettled 1;
              IntervalFired 1; UploadSettled 0] initial) in
      map (fun f => (status f, progress f)) final
        = [(Success, 100%Z); (Success, 100%Z)]
      /\ allCompleted final = true /\ hasSuccess final = true).
Proof. repeat split. Qed.

(** A file removed before the start leaves an empty, uncompleted queue. *)
Example removed_before_start :
  uploadFiles
    (run Fixtures.props (Fixtures.world None (Normal Fixtures.http200))
       Fixtures.ticking
       [FilesChosen [Fixtures.photo_png]; RemoveClicked "1700000000000-0.5"]
       initial)
    = []
  /\ allCompleted [] = false.
Proof. split; reflexivity. Qed.

End FileUploadFacts.

(** * Further properties of src/lib/n8n.ts *)

Module N8nLaws.
Import Js N8n N8nRest.

(** Unfold the effect combinators and split on every answer of the world. *)
Ltac split_world :=
  unfold callN8nRAGAgent, callN8nRAGAgentLocal, getUserProjects,
    uploadDocumentToN8n, saveChatRecord, getChatRecords,
    try_catch, bind, getUser, post, await, ret, throw,
    try_catch_on, bind_on, await_on, ret_on;
  repeat match goal with
         | |- context [match ?x with _ => _ end] =>
           lazymatch x with
           | context [match _ with _ => _ end] => fail
           | _ => destruct x eqn:?
           end
         end.

(** X1.  The two chat calls and the upload call never let an exception
    out: whatever the identity provider, the network and the parser do,
    each completes normally with a well-formed result object, a success
    with a payload and no error or a failure with an error and no
    payload. *)
Theorem calls_return_a_well_formed_result
    (env : Env) (chatInput : string) (projectId : ProjectRef)
    (file : File) (p t u : string) (tr : list Call) :
  (exists r, fst (callN8nRAGAgent env chatInput projectId tr) = Normal r
             /\ well_formed r)
  /\ (exists r, fst (callN8nRAGAgentLocal env chatInput projectId tr)
                = Normal r /\ well_formed r)
  /\ (exists r, fst (uploadDocumentToN8n env file p t u tr) = Normal r
                /\ well_formed r).
Proof.
  unfold well_formed.
  repeat split; split_world; cbn [fst];
    eexists; (split; [reflexivity |]);
    cbn [success error response]; eauto 8.
Qed.

(** X2.  The three database calls never let an exception out either:
    when the identity provider or the database throws, or the database
    reports an error, the project listing and the record listing return a
    list and the record save returns. *)
Theorem store_calls_never_throw
    (env : Env) (store : ChatStore) (userMessage aiResponse : string)
    (projectId : ProjectRef) (limit : option N) (tr : list Call)
    (tr' : list StoreCall) :
  (exists ps, fst (getUserProjects env tr) = Normal ps)
  /\ fst (saveChatRecord env userMessage aiResponse projectId tr) = Normal tt
  /\ (exists rows, fst (getChatRecords env store limit tr') = Normal rows).
Proof.
  repeat split; split_world; cbn [fst];
    try reflexivity; eexists; reflexivity.
Qed.

(** X3.  A chat call by a signed-in user that gets a 2xx response sends
    the question once, under that user's identifier, and succeeds.  The
    answer is the [ai_content] field when the body parses to an object
    holding a truthy one, the parsed string when the body parses to a
    string, and the raw body in every other case: a body that is not JSON,
    the literal [null] (whose property read throws), an object without a
    truthy [ai_content], a number, a boolean or an array. *)
Theorem chat_answer_is_decoded
    (env : Env) (chatInput : string) (projectId : ProjectRef)
    (u : User) (r : Response) :
  auth_getUser env = Normal (Some u) ->
  fetch env (N8N_WEBHOOK_URL env) (JsonBody chatInput projectId (user_id u))
    = Normal r ->
  ok r = true ->
  (exists answer,
      run (callN8nRAGAgent env chatInput projectId) =
        (Normal {| success := true; response := Some answer;
                   error := None |},
         [AuthGetUser;
          HttpPost (N8N_WEBHOOK_URL env)
            (JsonBody chatInput projectId (user_id u))])
      /\ match JSON_parse env (body r) with
         | Normal (JsObject fields) =>
           match lookup_field "ai_content" fields with
           | Some v => if truthy v then answer = v
                       else answer = JsString (body r)
           | None => answer = JsString (body r)
           end
         | Normal (JsString s) => answer = JsString s
         | Normal JsNull | Normal (JsBool _) | Normal (JsNumber _)
         | Normal (JsArray _) | Abrupt _ => answer = JsString (body r)
         end).
Proof.
  intros Hauth Hfetch Hok.
  exists (cleanResponse env (body r)). split.
  - unfold run, callN8nRAGAgent, try_catch, bind, getUser, post, await,
      ret, throw.
    rewrite Hauth. cbn [app]. rewrite Hfetch, Hok. reflexivity.
  - unfold cleanResponse.
    destruct (JSON_parse env (body r)) as [[| b | z | s | items | fields] | e];
      cbn [get_property]; try reflexivity.
    destruct (lookup_field "ai_content" fields) as [v |]; [| reflexivity].
    destruct (truthy v); reflexivity.
Qed.

Lemma chat_answer_is_decoded_witness :
  run (callN8nRAGAgent
         (Fixtures.world_json (Some Fixtures.alice) (Normal Fixtures.http200))
         "hello" (OneProject "project-1"))
  = (Normal {| success := true; response := Some (JsString "hello");
               error := None |},
     [AuthGetUser;
      HttpPost "https://n8n.aifunbox.com/webhook/1afe3c51-e81d-477b-b3e6-0686bc772534"
        (JsonBody "hello" (OneProject "project-1") "user-1")]).
Proof.
  destruct (@chat_answer_is_decoded
              (Fixtures.world_json (Some Fixtures.alice)
                 (Normal Fixtures.http200))
              "hello" (OneProject "project-1") Fixtures.alice Fixtures.http200
              eq_refl eq_refl eq_refl) as [answer [Hrun Hanswer]].
  cbn in Hanswer. rewrite Hrun, Hanswer. reflexivity.
Defined.

(** X4.  [callN8nRAGAgentLocal] does what [callN8nRAGAgent] does: in every
    world the two make the same calls and agree on [success] and on the
    answer; they are equal on success and when nobody is signed in, and
    otherwise differ at most in the wording of the error. *)
Theorem local_chat_agrees_with_chat
    (env : Env) (chatInput : string) (projectId : ProjectRef) :
  snd (run (callN8nRAGAgentLocal env chatInput projectId)) =
  snd (run (callN8nRAGAgent env chatInput projectId))
  /\ exists a b,
       fst (run (callN8nRAGAgent env chatInput projectId)) = Normal a
       /\ fst (run (callN8nRAGAgentLocal env chatInput projectId)) = Normal b
       /\ success a = success b
       /\ response a = response b
       /\ (success a = true -> a = b)
       /\ (auth_getUser env = Normal None -> a = b).
Proof.
  unfold run, callN8nRAGAgent, callN8nRAGAgentLocal, try_catch, bind,
    getUser, post, await, ret, throw.
  destruct (auth_getUser env) as [[u |] | e]; cbn [app].
  - destruct (fetch env (N8N_WEBHOOK_URL env)
                (JsonBody chatInput projectId (user_id u))) as [r | e].
    + destruct (ok r); cbn [negb]; split; try reflexivity;
        eexists _, _; repeat split; try reflexivity; try discriminate.
    + split; [reflexivity |].
      eexists _, _; repeat split; try reflexivity; discriminate.
  - split; [reflexivity |]. eexists _, _; repeat split; reflexivity.
  - split; [reflexivity |].
    eexists _, _; repeat split; try reflexivity; discriminate.
Qed.

(** X5.  [getUserProjects] hands out projects only when a user is signed
    in, the one query it made was for that user's own projects, and the
    database answered it without error with exactly these projects.  In
    every other case the list is empty. *)
Theorem listed_projects_come_from_the_store
    (env : Env) (ps : list UserProject) :
  fst (run (getUserProjects env)) = Normal ps ->
  ps <> [] ->
  exists u q,
    auth_getUser env = Normal (Some u)
    /\ projects_select env (user_id u) = Normal q
    /\ query_error q = None
    /\ data q = Some ps
    /\ snd (run (getUserProjects env)) =
       [AuthGetUser; SelectProjects (user_id u)].
Proof.
  unfold run, getUserProjects, try_catch, bind, getUser, await, ret, throw.
  destruct (auth_getUser env) as [[u |] | e]; cbn [app fst snd].
  - destruct (projects_select env (user_id u)) as [q | e] eqn:Hq;
      cbn [fst snd].
    + destruct (query_error q) eqn:Herr; cbn [fst snd].
      * intros H Hne. injection H as <-. contradiction.
      * destruct (data q) as [projects |] eqn:Hdata;
          intros H Hne; injection H as <-; [| contradiction].
        exists u, q. repeat split; assumption.
    + intros H Hne. injection H as <-. contradiction.
  - intros H Hne. injection H as <-. contradiction.
  - intros H Hne. injection H as <-. contradiction.
Qed.

Lemma listed_projects_come_from_the_store_witness :
  exists u q,
    auth_getUser
      (Samples.world_db
         (Normal {| data := Some [Samples.project_a]; query_error := None |})
         (Normal None)) = Normal (Some u)
    /\ projects_select
         (Samples.world_db
            (Normal {| data := Some [Samples.project_a];
                       query_error := None |})
            (Normal None)) (user_id u) = Normal q
    /\ query_error q = None
    /\ data q = Some [Samples.project_a]
    /\ snd (run (getUserProjects
                   (Samples.world_db
                      (Normal {| data := Some [Samples.project_a];
                                 query_error := None |})
                      (Normal None)))) =
       [AuthGetUser; SelectProjects (user_id u)].
Proof.
  apply (@listed_projects_come_from_the_store
           (Samples.world_db
              (Normal {| data := Some [Samples.project_a];
                         query_error := None |})
              (Normal None))
           [Samples.project_a]).
  - reflexivity.
  - discriminate.
Defined.

(** X6.  For a signed-in user [saveChatRecord] inserts one row and
    returns normally whatever the database answers, be it an error or an
    exception.  The row holds the two texts, the fixed role and agent type
    and the user's identifier; its project is the first of the project
    identifiers kept in its metadata, and is missing when an empty array
    was passed. *)
Theorem saved_row_is_the_turn
    (env : Env) (userMessage aiResponse : string) (projectId : ProjectRef)
    (u : User) :
  auth_getUser env = Normal (Some u) ->
  run (saveChatRecord env userMessage aiResponse projectId) =
    (Normal tt,
     [AuthGetUser;
      InsertChat
        {| content := userMessage;
           ai_content := aiResponse;
           role := "user";
           agent_type := "project_agent";
           row_project :=
             hd_error (match projectId with
                       | OneProject x => [x]
                       | ManyProjects xs => xs
                       end);
           row_user := user_id u;
           metadata_project_ids :=
             match projectId with
             | OneProject x => [x]
             | ManyProjects xs => xs
             end |}]).
Proof.
  intros Hauth.
  unfold run, saveChatRecord, try_catch, bind, getUser, await, ret.
  rewrite Hauth. cbn [app].
  destruct projectId as [x | xs]; cbn [projectIdStr project_ids hd_error];
    match goal with
    | |- context [chat_insert env ?row] => destruct (chat_insert env row)
    end; reflexivity.
Qed.

Lemma saved_row_is_the_turn_witness :
  run (saveChatRecord
         (Samples.world_db (Abrupt (ErrorObj "down"))
            (Normal (Some {| db_message := "row level security" |})))
         "hello" "hi" (ManyProjects ["project-1"; "project-2"])) =
    (Normal tt,
     [AuthGetUser;
      InsertChat
        {| content := "hello"; ai_content := "hi"; role := "user";
           agent_type := "project_agent";
           row_project := Some "project-1";
           row_user := "user-1";
           metadata_project_ids := ["project-1"; "project-2"] |}]).
Proof.
  apply (@saved_row_is_the_turn
           (Samples.world_db (Abrupt (ErrorObj "down"))
              (Normal (Some {| db_message := "row level security" |})))
           "hello" "hi" (ManyProjects ["project-1"; "project-2"])
           Fixtures.alice).
  reflexivity.
Defined.

(** X7.  Every call that the chat calls, the project listing and the record
    save make on behalf of a user names the user the identity provider
    resolved: without a resolved user, also when the provider throws, none
    of them makes such a call. *)
Theorem calls_speak_for_the_signed_in_user
    (env : Env) (chatInput userMessage aiResponse : string)
    (projectId : ProjectRef) (c : Call) (x : string) :
  In c (snd (run (callN8nRAGAgent env chatInput projectId))
        ++ snd (run (callN8nRAGAgentLocal env chatInput projectId))
        ++ snd (run (getUserProjects env))
        ++ snd (run (saveChatRecord env userMessage aiResponse projectId)))%list
  ->
  carried_user c = Some x ->
  exists u, auth_getUser env = Normal (Some u) /\ user_id u = x.
Proof.
  unfold run. split_world; cbn; intros Hin Hc;
    repeat match type of Hin with
           | _ \/ _ => destruct Hin as [Hin | Hin]
           | False => destruct Hin
           end;
    subst c; cbn in Hc;
    first [discriminate
          | eexists; split; [reflexivity | congruence]].
Qed.

Lemma calls_speak_for_the_signed_in_user_witness :
  exists u,
    auth_getUser (Fixtures.world (Some Fixtures.alice)
                    (Normal Fixtures.http200)) = Normal (Some u)
    /\ user_id u = "user-1".
Proof.
  apply (@calls_speak_for_the_signed_in_user
           (Fixtures.world (Some Fixtures.alice) (Normal Fixtures.http200))
           "hello" "hello" "hi" (OneProject "project-1")
           (SelectProjects "user-1") "user-1").
  - vm_compute. tauto.
  - reflexivity.
Defined.

(** X8.  [getChatRecords] hands out records only when a user is signed in
    and the store answered its one query without error with exactly these
    records; the query asks for that user's rows of agent type
    [project_agent], at most [limit] of them and 20 when no limit is
    given. *)
Theorem chat_records_come_from_the_store
    (env : Env) (store : ChatStore) (limit : option N)
    (rows : list ChatRecord) :
  fst (getChatRecords env store limit []) = Normal rows ->
  rows <> [] ->
  exists u q,
    auth_getUser env = Normal (Some u)
    /\ store (user_id u) "project_agent"
         (match limit with Some n => n | None => 20%N end) = Normal q
    /\ chat_error q = None
    /\ chat_data q = Some rows
    /\ snd (getChatRecords env store limit []) =
       [StoreGetUser;
        SelectChatHistory (user_id u) "project_agent"
          (match limit with Some n => n | None => 20%N end)].
Proof.
  unfold getChatRecords, try_catch_on, bind_on, await_on, ret_on.
  destruct (auth_getUser env) as [[u |] | e]; cbn [app fst snd].
  - destruct (store (user_id u) "project_agent"
                (match limit with Some n => n | None => 20%N end))
      as [q | e] eqn:Hq; cbn [fst snd].
    + destruct (chat_error q) eqn:Herr; cbn [fst snd].
      * intros H Hne. injection H as <-. contradiction.
      * destruct (chat_data q) as [found |] eqn:Hdata;
          intros H Hne; injection H as <-; [| contradiction].
        exists u, q. repeat split; assumption.
    + intros H Hne. injection H as <-. contradiction.
  - intros H Hne. injection H as <-. contradiction.
  - intros H Hne. injection H as <-. contradiction.
Qed.

Lemma chat_records_come_from_the_store_witness :
  snd (getChatRecords
         (Fixtures.world (Some Fixtures.alice) (Normal Fixtures.http200))
         Samples.one_turn None []) =
    [StoreGetUser; SelectChatHistory "user-1" "project_agent" 20].
Proof.
  destruct (@chat_records_come_from_the_store
              (Fixtures.world (Some Fixtures.alice) (Normal Fixtures.http200))
              Samples.one_turn None [Samples.turn_1]
              eq_refl ltac:(discriminate))
    as [u [q [Hu [_ [_ [_ Htrace]]]]]].
  injection Hu as <-. exact Htrace.
Defined.

(** X9.  The ingestion call posts the form once and reports success
    exactly when a response arrived whose status is in 200-299, or is 500
    with a non-empty body; the payload is then the body.  When the request
    itself fails, the error is the message of the exception. *)
Theorem upload_succeeds_exactly_when_accepted
    (env : Env) (file : File) (p t u : string) :
  exists result,
    run (uploadDocumentToN8n env file p t u) =
      (Normal result, [HttpPost (uploadUrl env) (FormData file p u t)])
    /\ (success result = true <->
        exists r,
          fetch env (uploadUrl env) (FormData file p u t) = Normal r
          /\ ((200 <= status r <= 299)%N
              \/ (status r = 500%N /\ body r <> ""))
          /\ response result = Some (JsString (body r)))
    /\ (forall m,
          fetch env (uploadUrl env) (FormData file p u t)
            = Abrupt (ErrorObj m) ->
          result = {| success := false; response := None;
                      error := Some m |}).
Proof.
  unfold run, uploadDocumentToN8n, try_catch, bind, post, await, ret, throw.
  cbn [app].
  destruct (fetch env (uploadUrl env) (FormData file p u t)) as [r | e].
  - destruct (upload_accepted r) eqn:Hacc.
    + eexists. split; [reflexivity |]. split; [| discriminate].
      cbn [success response]. split; [intros _ | reflexivity].
      exists r. split; [reflexivity |]. split; [| reflexivity].
      unfold upload_accepted in Hacc. apply orb_true_iff in Hacc.
      destruct Hacc as [Hok | H500].
      * left. apply N8nFacts.ok_range. exact Hok.
      * right. apply andb_true_iff in H500. destruct H500 as [H1 H2].
        apply N.eqb_eq in H1. apply N8nFacts.truthy_string_true in H2.
        split; assumption.
    + eexists. split; [reflexivity |]. split; [| discriminate].
      cbn [success]. split; [discriminate |].
      intros [r' [Hr' [Hcond _]]]. injection Hr' as <-.
      unfold upload_accepted in Hacc. apply orb_false_iff in Hacc.
      destruct Hacc as [Hok H500]. destruct Hcond as [Hrange | [H1 H2]].
      * apply N8nFacts.ok_range in Hrange. congruence.
      * apply N.eqb_eq in H1. apply N8nFacts.truthy_string_true in H2.
        rewrite H1, H2 in H500. discriminate.
  - eexists. split; [reflexivity |]. split.
    + cbn [success]. split; [discriminate |].
      intros [r' [Hr' _]]. discriminate.
    + intros m Hm. injection Hm as ->. reflexivity.
Qed.

End N8nLaws.

(** * Further properties of the FileUpload component *)

Module QueueLaws.
Import Js FileUpload Dialog.

(** ** Icons *)

(** X10.  A file that passes validation is shown with the icon of its
    kind: the picture for the three image types, the page for PDF, the
    memo for both Word types and the newspaper for plain text.  The
    folder, the icon of unknown types, is never shown for it. *)
Theorem accepted_files_have_their_own_icon (f : File) :
  validateFile f = None ->
  (exists m,
      type f = Spec.mime m
      /\ getFileIcon f =
         match m with
         | Spec.JPEG | Spec.PNG | Spec.GIF => "🖼️"
         | Spec.PDF => "📄"
         | Spec.LegacyWord | Spec.ModernWord => "📝"
         | Spec.PlainText => "📰"
         end)
  /\ getFileIcon f <> "📁".
Proof.
  intros Hvalid.
  assert (In (type f) acceptedTypes) as Hin.
  { apply FileUploadFacts.includes_In. unfold validateFile in Hvalid.
    destruct (includes acceptedTypes (type f)); [reflexivity | discriminate]. }
  unfold getFileIcon.
  cbn [In acceptedTypes] in Hin.
  destruct Hin as [H | [H | [H | [H | [H | [H | [H | []]]]]]]];
    rewrite <- H; (split; [| discriminate]).
  - exists Spec.PDF. split; reflexivity.
  - exists Spec.JPEG. split; reflexivity.
  - exists Spec.PNG. split; reflexivity.
  - exists Spec.GIF. split; reflexivity.
  - exists Spec.LegacyWord. split; reflexivity.
  - exists Spec.ModernWord. split; reflexivity.
  - exists Spec.PlainText. split; reflexivity.
Qed.

Lemma accepted_files_have_their_own_icon_witness :
  getFileIcon Fixtures.notes_txt <> "📁".
Proof.
  apply (@accepted_files_have_their_own_icon Fixtures.notes_txt).
  reflexivity.
Defined.

(** ** Removing *)

Lemma setUploadFiles_same g st :
  g (uploadFiles st) = uploadFiles st -> setUploadFiles g st = st.
Proof.
  intros H. destruct st. unfold setUploadFiles. cbn in *. rewrite H.
  reflexivity.
Qed.

Lemma without_absent i (l : list UploadFile) :
  ~ In i (map id l) -> without i l = l.
Proof.
  unfold without. induction l as [| f l IH]; cbn [map filter In];
    intros Hnot; [reflexivity |].
  destruct (String.eqb_spec (id f) i) as [Heq | Hne]; cbn [negb].
  - exfalso. apply Hnot. left. exact Heq.
  - rewrite IH; [reflexivity |]. intros Hin. apply Hnot. right. exact Hin.
Qed.

(** X11.  [removeFile] takes out every entry with the given identifier and
    no other, and keeps the order: with distinct identifiers the queue
    [before ++ f :: after] becomes [before ++ after].  Removing an
    identifier that is not there changes nothing, removing twice is
    removing once, and two removals commute.  The intervals, the attempts
    in flight and the requests sent stay as they are: an upload under way
    is not cancelled. *)
Theorem removeFile_takes_out_one_entry (i j : string) (st : State) :
  (forall f, In f (uploadFiles (removeFile i st)) <->
             In f (uploadFiles st) /\ id f <> i)
  /\ (forall before f after,
        NoDup (map id (uploadFiles st)) ->
        uploadFiles st = (before ++ f :: after)%list ->
        id f = i ->
        uploadFiles (removeFile i st) = (before ++ after)%list)
  /\ (~ In i (map id (uploadFiles st)) -> removeFile i st = st)
  /\ removeFile i (removeFile i st) = removeFile i st
  /\ removeFile i (removeFile j st) = removeFile j (removeFile i st)
  /\ intervals (removeFile i st) = intervals st
  /\ inflight (removeFile i st) = inflight st
  /\ network (removeFile i st) = network st.
Proof.
  split.
  { intros f. cbn [removeFile setUploadFiles uploadFiles]. unfold without.
    rewrite filter_In, negb_true_iff, String.eqb_neq. reflexivity. }
  split.
  { intros before f after Hnd Heq Hid.
    cbn [removeFile setUploadFiles uploadFiles]. rewrite Heq in *.
    rewrite map_app in Hnd. cbn [map] in Hnd.
    apply NoDup_remove in Hnd. destruct Hnd as [_ Hnotin].
    rewrite Hid in Hnotin.
    unfold without. rewrite filter_app. cbn [filter].
    rewrite Hid, String.eqb_refl. cbn [negb].
    fold (without i before). fold (without i after).
    rewrite !without_absent; [reflexivity | |];
      intros Hin; apply Hnotin; apply in_or_app; auto. }
  split.
  { intros Hnot. apply setUploadFiles_same. apply without_absent. exact Hnot. }
  split.
  { unfold removeFile, setUploadFiles. cbn [uploadFiles intervals nextHandle
      inflight network readings]. f_equal.
    unfold without. induction (uploadFiles st) as [| f l IH]; cbn [filter];
      [reflexivity |].
    destruct (id f =? i) eqn:E; cbn [negb filter]; [exact IH |].
    rewrite E. cbn [negb]. f_equal. exact IH. }
  split.
  { unfold removeFile, setUploadFiles. cbn [uploadFiles intervals nextHandle
      inflight network readings]. f_equal.
    unfold without. induction (uploadFiles st) as [| f l IH]; cbn [filter];
      [reflexivity |].
    destruct (id f =? i) eqn:Ei, (id f =? j) eqn:Ej; cbn [negb filter];
      rewrite ?Ei, ?Ej; cbn [negb]; rewrite IH; reflexivity. }
  repeat split.
Qed.

Lemma removeFile_takes_out_one_entry_witness :
  removeFile "1700000000000-0.5" Fixtures.started
  = {| uploadFiles := [];
       intervals := intervals Fixtures.started;
       nextHandle := nextHandle Fixtures.started;
       inflight := inflight Fixtures.started;
       network := network Fixtures.started;
       readings := readings Fixtures.started |}
  /\ length (intervals Fixtures.started) = 1%nat.
Proof.
  destruct (removeFile_takes_out_one_entry
              "1700000000000-0.5" "other" Fixtures.started)
    as (_ & Hmid & _).
  split; [| reflexivity].
  pose proof (Hmid [] (to_uploading Fixtures.photo_entry) []
                ltac:(vm_compute; repeat constructor; intros [])
                eq_refl eq_refl) as H.
  unfold removeFile, setUploadFiles in *.
  cbn [uploadFiles] in H. rewrite H. reflexivity.
Defined.

(** ** Which entries there are *)

Lemma filter_all {A} (l : list A) : filter (fun _ => true) l = l.
Proof.
  induction l as [| x l IH]; cbn [filter]; [reflexivity |].
  rewrite IH. reflexivity.
Qed.

Lemma filter_twice {A} (p q : A -> bool) (l : list A) :
  filter q (filter p l) = filter (fun x => p x && q x) l.
Proof.
  induction l as [| x l IH]; cbn [filter]; [reflexivity |].
  destruct (p x); cbn [filter andb]; [| exact IH].
  destruct (q x); rewrite IH; reflexivity.
Qed.

Lemma step_ids props env o (e : Event) (st : State) :
  chooses_files e = false ->
  map id (uploadFiles (step props env o e st)) =
  filter (fun x => negb (includes (removed_ids [e]) x))
         (map id (uploadFiles st)).
Proof.
  intros Hno.
  pose proof (FileUploadFacts.step_shape props env o e st) as Hshape.
  assert (forall (c : UploadFile -> bool) (g : UploadFile -> UploadFile),
             uploadFiles (step props env o e st) =
               map (fun f => if c f then g f else f) (uploadFiles st) /\
             (g = to_uploading
              \/ (g = to_next_progress
                  /\ forall f, c f = true -> (progress f < 90)%Z)
              \/ (g = to_success /\ takes_success_branch e st = true)
              \/ (exists m, g = to_error m)
              \/ (exists i t, g = to_title t /\ e = TitleEdited i t)) ->
             map id (uploadFiles (step props env o e st)) =
             map id (uploadFiles st)) as Hmap.
  { intros c g [Heq Hg]. rewrite Heq, map_map. apply map_ext. intros f.
    destruct (c f); [| reflexivity].
    destruct Hg as [-> | [[-> _] | [[-> _] | [[m ->] | [j [t [-> _]]]]]]];
      reflexivity. }
  destruct e as [files | | h | k | i | i t]; try discriminate Hno;
    cbn [removed_ids flat_map app includes existsb negb];
    rewrite ?filter_all.
  - FileUploadFacts.by_rewriting Hshape Hmap.
  - FileUploadFacts.by_rewriting Hshape Hmap.
  - FileUploadFacts.by_rewriting Hshape Hmap.
  - rewrite Hshape, filter_map_swap. f_equal. apply filter_ext.
    intros f. rewrite orb_false_r, (FileUploadFacts.eqb_comm i (id f)).
    reflexivity.
  - FileUploadFacts.by_rewriting Hshape Hmap.
Qed.

(** X12.  As long as no files are chosen, the identifiers in the queue
    are the earlier ones without the removed ones, in the same order:
    starting, interval firings, responses and title edits neither add an
    entry nor drop one, and a removed entry does not come back when its
    interval fires or its response arrives. *)
Theorem entries_leave_only_by_removal
    (props : FileUploadProps) (env : N8n.Env) (o : Oracle)
    (events : list Event) (st : State) :
  existsb chooses_files events = false ->
  map id (uploadFiles (run props env o events st)) =
  filter (fun x => negb (includes (removed_ids events) x))
         (map id (uploadFiles st)).
Proof.
  unfold run. revert st.
  induction events as [| e events IH]; intros st; cbn [existsb fold_left].
  - intros _. cbn. symmetry. apply filter_all.
  - intros Hno. apply orb_false_iff in Hno. destruct Hno as [He Hrest].
    rewrite (IH _ Hrest), (step_ids props env o e st He), filter_twice.
    apply filter_ext. intros x.
    assert (removed_ids (e :: events)
            = (removed_ids [e] ++ removed_ids events)%list) as ->.
    { unfold removed_ids. cbn [flat_map]. rewrite app_nil_r. reflexivity. }
    unfold includes. rewrite existsb_app, negb_orb. reflexivity.
Qed.

Lemma entries_leave_only_by_removal_witness :
  map id
    (uploadFiles
       (run Fixtures.props (Fixtures.world None (Normal Fixtures.http200))
          Fixtures.ticking
          [RemoveClicked "1700000000000-0.5"; IntervalFired 0;
           UploadSettled 0]
          Fixtures.started))
  = [].
Proof.
  rewrite (@entries_leave_only_by_removal Fixtures.props
             (Fixtures.world None (Normal Fixtures.http200))
             Fixtures.ticking
             [RemoveClicked "1700000000000-0.5"; IntervalFired 0;
              UploadSettled 0]
             Fixtures.started eq_refl).
  reflexivity.
Defined.

(** ** Requests *)

Lemma start_fold_network props env (us : list UploadFile) st :
  network (fold_left (fun s u => uploadFile_start props env u s) us st) =
  (network st ++ map (request_of props env) us)%list.
Proof.
  revert st. induction us as [| u us IH]; intros st; cbn [fold_left map].
  - rewrite app_nil_r. reflexivity.
  - rewrite IH.
    destruct (FileUploadFacts.uploadFile_start_eq props env u st)
      as [result [_ Heq]].
    rewrite Heq. cbn [network]. rewrite <- app_assoc. reflexivity.
Qed.

(** X13.  Requests leave only when the start button is clicked: the click
    posts one form per pending entry, in queue order, each with the file,
    the project and user of the dialog and the title the entry has at that
    moment.  Choosing files, interval firings, responses (also failed
    ones), removals and title edits send nothing. *)
Theorem requests_leave_only_on_start
    (props : FileUploadProps) (env : N8n.Env) (o : Oracle)
    (e : Event) (st : State) :
  network (step props env o e st) =
  (network st ++
   match e with
   | StartClicked =>
     map (fun u =>
            N8n.HttpPost (N8n.uploadUrl env)
              (N8n.FormData (file u) (projectId props) (userId props)
                 (title u)))
         (filter is_pending (uploadFiles st))
   | _ => []
   end)%list.
Proof.
  destruct e as [files | | h | k | i | i t]; cbn [step];
    rewrite ?app_nil_r.
  - reflexivity.
  - unfold startUpload. apply start_fold_network.
  - unfold interval_fires.
    destruct (find (fun x => (handle x =? h)%nat) (intervals st));
      reflexivity.
  - unfold settle. destruct (nth_error (inflight st) k) as [a |];
      [| reflexivity].
    unfold uploadFile_resume, uploadFile_catch.
    destruct (outcome a) as [result | err];
      [destruct (N8n.success result) |]; reflexivity.
  - reflexivity.
  - reflexivity.
Qed.

Lemma none_pending_after_marking (ids : list string) (l : list UploadFile) :
  (forall f, In f l -> is_pending f = true -> includes ids (id f) = true) ->
  filter is_pending
    (map (fun f => if includes ids (id f) then to_uploading f else f) l)
  = [].
Proof.
  induction l as [| f l IH]; intros Hall; [reflexivity |].
  cbn [map filter].
  destruct (includes ids (id f)) eqn:Hinc.
  - apply IH. intros g Hg. apply Hall. right. exact Hg.
  - destruct (is_pending f) eqn:Hp.
    + rewrite (Hall f (or_introl eq_refl) Hp) in Hinc. discriminate.
    + apply IH. intros g Hg. apply Hall. right. exact Hg.
Qed.

(** X14.  After [startUpload] no entry is pending, so the start button is
    disabled and a second click does nothing: no entry changes, no
    interval is set and no request is sent twice. *)
Theorem second_start_does_nothing
    (props : FileUploadProps) (env : N8n.Env) (st : State) :
  filter is_pending (uploadFiles (startUpload props env st)) = []
  /\ startDisabled (uploadFiles (startUpload props env st)) = true
  /\ startUpload props env (startUpload props env st) =
     startUpload props env st.
Proof.
  assert (filter is_pending (uploadFiles (startUpload props env st)) = [])
    as Hnone.
  { rewrite FileUploadFacts.startUpload_uploadFiles.
    apply none_pending_after_marking.
    intros f Hf Hp. apply FileUploadFacts.includes_In.
    apply in_map. apply filter_In. split; assumption. }
  split; [exact Hnone |].
  split.
  - unfold startDisabled. rewrite Hnone. reflexivity.
  - unfold startUpload at 1. rewrite Hnone. reflexivity.
Qed.

(** ** The footer *)

(** X15.  The queue counts as completed exactly when it is not empty and
    every entry is stored or in error, and as having a success exactly
    when some entry is stored.  Whenever an entry is pending the start
    button is on screen and enabled; it is on screen but disabled only for
    an empty queue or while an upload is under way; and the refresh button
    never appears together with it. *)
Theorem footer_follows_the_statuses (l : list UploadFile) :
  (allCompleted l = true <->
   l <> [] /\ forall f, In f l -> status f = Success \/ status f = Error)
  /\ (hasSuccess l = true <-> exists f, In f l /\ status f = Success)
  /\ ((exists f, In f l /\ status f = Pending) <->
      startShown l = true /\ startDisabled l = false)
  /\ (startShown l = true -> startDisabled l = true ->
      l = [] \/ exists f, In f l /\ status f = Uploading)
  /\ (refreshShown l = true ->
      startShown l = false /\ closeLabel l = "完成").
Proof.
  assert (allCompleted l = true <->
          l <> [] /\
          forall f, In f l -> status f = Success \/ status f = Error)
    as Hall.
  { unfold allCompleted. rewrite andb_true_iff, Nat.ltb_lt, forallb_forall.
    split.
    - intros [Hlen Hst]. split.
      + intros ->. cbn in Hlen. lia.
      + intros f Hf. specialize (Hst f Hf).
        destruct (status f); cbn in Hst; try discriminate; auto.
    - intros [Hne Hst]. split.
      + destruct l; [contradiction | cbn; lia].
      + intros f Hf. destruct (Hst f Hf) as [-> | ->]; reflexivity. }
  assert ((exists f, In f l /\ status f = Pending) <->
          filter is_pending l <> []) as Hpend.
  { split.
    - intros [f [Hf Hs]] Hnil.
      assert (In f (filter is_pending l)) as Hin.
      { apply filter_In. split; [exact Hf |]. unfold is_pending.
        rewrite Hs. reflexivity. }
      rewrite Hnil in Hin. destruct Hin.
    - intros Hne. destruct (filter is_pending l) as [| f rest] eqn:E;
        [contradiction |].
      assert (In f (filter is_pending l)) as Hin by (rewrite E; left; auto).
      apply filter_In in Hin. destruct Hin as [Hf Hp]. exists f.
      split; [exact Hf |]. unfold is_pending in Hp.
      destruct (status f); try discriminate. reflexivity. }
  split; [exact Hall |].
  split.
  { unfold hasSuccess. rewrite existsb_exists. split.
    - intros [f [Hf Hs]]. exists f. split; [exact Hf |].
      destruct (status f); try discriminate. reflexivity.
    - intros [f [Hf Hs]]. exists f. split; [exact Hf |].
      rewrite Hs. reflexivity. }
  split.
  { rewrite Hpend. unfold startShown, startDisabled.
    rewrite negb_true_iff, Nat.eqb_neq. split.
    - intros Hne. split.
      + apply not_true_is_false. intros E.
        apply Hall in E. destruct E as [_ Hst].
        apply Hpend in Hne. destruct Hne as [f [Hf Hs]].
        destruct (Hst f Hf); congruence.
      + destruct (filter is_pending l); [contradiction | discriminate].
    - intros [_ Hlen] Hnil. rewrite Hnil in Hlen. apply Hlen. reflexivity. }
  split.
  { unfold startShown, startDisabled.
    rewrite negb_true_iff, Nat.eqb_eq. intros Hnot Hlen.
    destruct l as [| f0 l0]; [left; reflexivity | right].
    assert (~ (forall f, In f (f0 :: l0) ->
                         status f = Success \/ status f = Error)) as Hsome.
    { intros Hst. assert (allCompleted (f0 :: l0) = true) as E.
      { apply Hall. split; [discriminate | exact Hst]. }
      congruence. }
    assert (forall f, In f (f0 :: l0) -> status f <> Pending) as Hnopend.
    { intros f Hf Hs. apply length_zero_iff_nil in Hlen.
      assert (filter is_pending (f0 :: l0) <> []) as Hne.
      { apply Hpend. exists f. split; assumption. }
      contradiction. }
    revert Hsome Hnopend. generalize (f0 :: l0) as l1. intros l1.
    induction l1 as [| f l1 IH]; intros Hsome Hnopend.
    - exfalso. apply Hsome. intros f [].
    - destruct (status f) eqn:Hs.
      + exfalso. apply (Hnopend f); [left; reflexivity | exact Hs].
      + exists f. split; [left; reflexivity | exact Hs].
      + destruct IH as [g [Hg Hgs]].
        * intros Hst. apply Hsome. intros g [<- | Hg]; [auto | apply Hst, Hg].
        * intros g Hg. apply Hnopend. right. exact Hg.
        * exists g. split; [right; exact Hg | exact Hgs].
      + destruct IH as [g [Hg Hgs]].
        * intros Hst. apply Hsome. intros g [<- | Hg]; [auto | apply Hst, Hg].
        * intros g Hg. apply Hnopend. right. exact Hg.
        * exists g. split; [right; exact Hg | exact Hgs]. }
  unfold refreshShown, startShown, closeLabel. intros H.
  apply andb_true_iff in H. destruct H as [-> _]. split; reflexivity.
Qed.

(** ** What every reachable state satisfies *)

Lemma ok_to_uploading f : entry_ok (to_uploading f).
Proof.
  unfold entry_ok. cbn [to_uploading progress status error]. repeat split.
  - exists 0%Z. lia.
  - discriminate.
  - discriminate.
  - discriminate.
  - discriminate.
Qed.

Lemma ok_to_success f : entry_ok (to_success f).
Proof.
  unfold entry_ok. cbn [to_success progress status error]. repeat split.
  - exists 10%Z. lia.
  - discriminate.
  - discriminate.
Qed.

Lemma ok_to_error m f : m <> "" -> entry_ok (to_error m f).
Proof.
  intros Hm. unfold entry_ok. cbn [to_error progress status error].
  repeat split.
  - exists 0%Z. lia.
  - discriminate.
  - discriminate.
  - discriminate.
  - intros _. exists m. split; [reflexivity | exact Hm].
Qed.

Lemma ok_to_title t f : entry_ok f -> entry_ok (to_title t f).
Proof. intros H. exact H. Qed.

Lemma ok_to_next_progress f :
  entry_ok f -> (progress f < 90)%Z -> entry_ok (to_next_progress f).
Proof.
  intros ([k [Hk Hp]] & Hdone & Hpend & Herr) Hlt.
  unfold entry_ok. cbn [to_next_progress progress status error].
  split; [| split; [| split]].
  - exists (k + 1)%Z. lia.
  - split.
    + intros H. lia.
    + intros Hs. apply Hdone in Hs. lia.
  - exact Hpend.
  - exact Herr.
Qed.

Lemma ok_new o n files : Forall entry_ok (newFiles o n files).
Proof.
  eapply Forall_impl; [| apply FileUploadFacts.newFiles_each].
  intros f (Hp & _ & Hst). unfold entry_ok. rewrite Hp.
  destruct (Spec.passes_validation (file f));
    destruct Hst as [Hs He]; rewrite Hs;
    repeat split; intros; try discriminate; try assumption;
    exists 0%Z; lia.
Qed.

Lemma ok_map (c : UploadFile -> bool) (g : UploadFile -> UploadFile)
    (l : list UploadFile) :
  (forall f, entry_ok f -> c f = true -> entry_ok (g f)) ->
  Forall entry_ok l ->
  Forall entry_ok (map (fun f => if c f then g f else f) l).
Proof.
  intros Hg Hl. induction Hl as [| f l Hf Hl IH]; cbn [map]; constructor.
  - destruct (c f) eqn:E; [apply Hg; assumption | exact Hf].
  - exact IH.
Qed.

Lemma or_else_not_empty (o : option string) (fallback : string) :
  fallback <> "" -> or_else o fallback <> "".
Proof.
  intros Hf. unfold or_else, truthy_opt.
  destruct o as [s |]; [| exact Hf].
  destruct (truthy_string s) eqn:E; [| exact Hf].
  apply N8nFacts.truthy_string_true. exact E.
Qed.

Lemma filter_keeps_absent (t : nat) (l : list Attempt) :
  ~ In t (map timer l) ->
  filter (fun b => negb (timer b =? t)%nat) l = l.
Proof.
  induction l as [| b l IH]; cbn [map In filter]; intros Hnot;
    [reflexivity |].
  destruct (Nat.eqb_spec (timer b) t) as [Heq | Hne]; cbn [negb].
  - exfalso. apply Hnot. left. exact Heq.
  - rewrite IH; [reflexivity |]. intros Hin. apply Hnot. right. exact Hin.
Qed.

(** With distinct timers, leaving out the [k]-th attempt is filtering on
    its timer. *)
Lemma filter_out_nth (l : list Attempt) (k : nat) (a : Attempt) :
  NoDup (map timer l) ->
  nth_error l k = Some a ->
  filter (fun b => negb (timer b =? timer a)%nat) l =
  (firstn k l ++ skipn (S k) l)%list.
Proof.
  revert k. induction l as [| b l IH]; intros k Hnd Hk.
  - destruct k; discriminate.
  - cbn [map] in Hnd. inversion Hnd as [| ? ? Hnotin Hnd']; subst.
    destruct k as [| k]; cbn [nth_error] in Hk.
    + injection Hk as ->. cbn [filter firstn skipn app].
      rewrite Nat.eqb_refl. cbn [negb].
      apply filter_keeps_absent. exact Hnotin.
    + cbn [filter firstn skipn app].
      destruct (Nat.eqb_spec (timer b) (timer a)) as [Heq | Hne];
        cbn [negb].
      * exfalso. apply Hnotin. rewrite Heq. apply in_map.
        eapply nth_error_In. exact Hk.
      * f_equal. apply IH; assumption.
Qed.

Lemma start_keeps_invariants props env u st :
  timers_ok st -> Forall entry_ok (uploadFiles st) ->
  timers_ok (uploadFile_start props env u st)
  /\ Forall entry_ok (uploadFiles (uploadFile_start props env u st)).
Proof.
  intros (Hnormal & Hint & Hnd & Hlt) Hok.
  destruct (FileUploadFacts.uploadFile_start_eq props env u st)
    as [result [_ Heq]].
  rewrite Heq. unfold timers_ok.
  cbn [uploadFiles intervals nextHandle inflight].
  split; [split; [| split; [| split]] |].
  - apply Forall_app. split; [exact Hnormal |].
    constructor; [| constructor]. exists result. reflexivity.
  - rewrite map_app, rev_app_distr, <- Hint. reflexivity.
  - rewrite map_app. apply NoDup_app.
    + exact Hnd.
    + cbn. constructor; [intros [] | constructor].
    + intros t Hin [<- | []]. cbn [timer] in *.
      apply in_map_iff in Hin. destruct Hin as [b [Hb Hin]].
      rewrite Forall_forall in Hlt. specialize (Hlt b Hin). lia.
  - apply Forall_app. split.
    + eapply Forall_impl; [| exact Hlt]. cbn. intros b Hb. lia.
    + constructor; [cbn; lia | constructor].
  - apply ok_map; [| exact Hok]. intros f _ _. apply ok_to_uploading.
Qed.

Lemma settle_keeps_invariants k st :
  timers_ok st -> Forall entry_ok (uploadFiles st) ->
  timers_ok (settle k st) /\ Forall entry_ok (uploadFiles (settle k st)).
Proof.
  intros (Hnormal & Hint & Hnd & Hlt) Hok.
  unfold settle.
  destruct (nth_error (inflight st) k) as [a |] eqn:Hk;
    [| split; [repeat split |]; assumption].
  pose proof (filter_out_nth _ _ Hnd Hk) as Hrest.
  assert (exists r, outcome a = Normal r) as [r Hr].
  { rewrite Forall_forall in Hnormal. apply Hnormal.
    eapply nth_error_In. exact Hk. }
  unfold uploadFile_resume, uploadFile_catch. rewrite Hr.
  assert (timers_ok
            {| uploadFiles := uploadFiles st;
               intervals :=
                 filter (fun t => negb (handle t =? timer a)%nat)
                        (intervals st);
               nextHandle := nextHandle st;
               inflight := (firstn k (inflight st)
                              ++ skipn (S k) (inflight st))%list;
               network := network st;
               readings := readings st |}) as Hcleared.
  { unfold timers_ok. cbn [intervals inflight nextHandle].
    rewrite <- Hrest. split; [| split; [| split]].
    - rewrite Forall_forall in *. intros b Hb. apply filter_In in Hb.
      apply Hnormal, Hb.
    - rewrite Hint, filter_rev, filter_map_swap. reflexivity.
    - apply FileUploadFacts.NoDup_map_filter. exact Hnd.
    - rewrite Forall_forall in *. intros b Hb. apply filter_In in Hb.
      apply Hlt, Hb. }
  destruct (N8n.success r).
  - split; [exact Hcleared |].
    cbn [setUploadFiles clearInterval uploadFiles].
    apply ok_map; [| exact Hok]. intros f _ _. apply ok_to_success.
  - split; [exact Hcleared |].
    cbn [setUploadFiles clearInterval uploadFiles message_or].
    apply ok_map; [| exact Hok]. intros f _ _. apply ok_to_error.
    apply or_else_not_empty. discriminate.
Qed.

Lemma step_keeps_invariants props env o (e : Event) (st : State) :
  timers_ok st -> Forall entry_ok (uploadFiles st) ->
  timers_ok (step props env o e st)
  /\ Forall entry_ok (uploadFiles (step props env o e st)).
Proof.
  intros Ht Hok. destruct e as [files | | h | k | i | i t]; cbn [step].
  - split; [exact Ht |]. cbn [handleFiles uploadFiles]. unfold append_new.
    apply Forall_app. split; [exact Hok | apply ok_new].
  - unfold startUpload. generalize (filter is_pending (uploadFiles st)).
    intros us. revert st Ht Hok.
    induction us as [| u us IH]; intros st Ht Hok; cbn [fold_left].
    + split; assumption.
    + destruct (start_keeps_invariants props env u Ht Hok) as [Ht' Hok'].
      apply IH; assumption.
  - unfold interval_fires.
    destruct (find (fun x => (handle x =? h)%nat) (intervals st)) as [t |];
      [| split; assumption].
    split; [exact Ht |]. cbn [setUploadFiles uploadFiles]. unfold tick.
    apply ok_map; [| exact Hok]. intros f Hf Hc.
    apply andb_true_iff in Hc. destruct Hc as [_ Hc]. apply Z.ltb_lt in Hc.
    apply ok_to_next_progress; assumption.
  - apply settle_keeps_invariants; assumption.
  - split; [exact Ht |]. cbn [removeFile setUploadFiles uploadFiles].
    unfold without. rewrite Forall_forall in *. intros f Hf.
    apply filter_In in Hf. apply Hok, Hf.
  - split; [exact Ht |]. cbn [updateFileTitle setUploadFiles uploadFiles].
    unfold retitle. apply ok_map; [| exact Hok].
    intros f Hf _. apply ok_to_title. exact Hf.
Qed.

Lemma run_keeps_invariants props env o (events : list Event) :
  timers_ok (run props env o events initial)
  /\ Forall entry_ok (uploadFiles (run props env o events initial)).
Proof.
  unfold run.
  assert (timers_ok initial /\ Forall entry_ok (uploadFiles initial)) as H.
  { split; [| constructor]. unfold timers_ok. cbn.
    repeat split; constructor. }
  revert H. generalize initial as st. 
  induction events as [| e events IH]; intros st [Ht Hok]; cbn [fold_left].
  - split; assumption.
  - apply IH. apply step_keeps_invariants; assumption.
Qed.

(** X16.  In every state the dialog can reach from the empty queue, the
    progress of each entry is one of 0, 10, ..., 100 and is 100 exactly
    when the file is stored; a pending entry carries no error, and an
    entry in error carries a non-empty message, so the row always has a
    text to show. *)
Theorem reachable_entries_are_consistent
    (props : FileUploadProps) (env : N8n.Env) (o : Oracle)
    (events : list Event) (f : UploadFile) :
  In f (uploadFiles (run props env o events initial)) ->
  (exists k, (0 <= k <= 10)%Z /\ progress f = (10 * k)%Z)
  /\ (progress f = 100%Z <-> status f = Success)
  /\ (status f = Pending -> error f = None)
  /\ (errorTextShown f = true -> exists m, error f = Some m /\ m <> "").
Proof.
  intros Hin.
  destruct (run_keeps_invariants props env o events) as [_ Hok].
  rewrite Forall_forall in Hok.
  destruct (Hok f Hin) as (Hp & Hdone & Hpend & Herr).
  repeat split; try assumption; try apply Hdone.
  intros Hshown. apply Herr. unfold errorTextShown in Hshown.
  destruct (status f); try discriminate. reflexivity.
Qed.

Lemma reachable_entries_are_consistent_witness :
  progress (to_uploading Fixtures.photo_entry) = 100%Z <->
  status (to_uploading Fixtures.photo_entry) = Success.
Proof.
  apply (@reachable_entries_are_consistent Fixtures.props
           (Fixtures.world None (Normal Fixtures.http200)) Fixtures.ticking
           [FilesChosen [Fixtures.photo_png]; StartClicked]
           (to_uploading Fixtures.photo_entry)).
  vm_compute. left. reflexivity.
Defined.

(** X17.  In every state the dialog can reach from the empty queue, the
    intervals that are set are exactly those of the upload attempts still
    in flight, each aimed at the entry of its attempt and firing every
    300 ms, and every awaited ingestion call returns a result rather than
    throwing.  So each response clears its own interval, and once no
    attempt is in flight no interval is left. *)
Theorem intervals_are_those_of_attempts_in_flight
    (props : FileUploadProps) (env : N8n.Env) (o : Oracle)
    (events : list Event) :
  intervals (run props env o events initial) =
    rev (map (fun a => {| handle := timer a; target := id (entry a);
                          delay := 300 |})
             (inflight (run props env o events initial)))
  /\ NoDup (map handle (intervals (run props env o events initial)))
  /\ (forall a, In a (inflight (run props env o events initial)) ->
                exists r, outcome a = Normal r)
  /\ (forall k a,
        nth_error (inflight (run props env o events initial)) k = Some a ->
        find (fun t => (handle t =? timer a)%nat)
             (intervals (run props env o (events ++ [UploadSettled k])
                           initial)) = None)
  /\ (inflight (run props env o events initial) = [] ->
      intervals (run props env o events initial) = []).
Proof.
  destruct (run_keeps_invariants props env o events)
    as [(Hnormal & Hint & Hnd & Hlt) _].
  split; [exact Hint |].
  split.
  { rewrite Hint, map_rev, map_map. apply NoDup_rev. exact Hnd. }
  split.
  { rewrite Forall_forall in Hnormal. exact Hnormal. }
  split.
  { intros k a Hk. unfold run. rewrite fold_left_app. cbn [fold_left step].
    fold (run props env o events initial).
    unfold settle. rewrite Hk.
    rewrite Forall_forall in Hnormal.
    destruct (Hnormal a (nth_error_In _ _ Hk)) as [r Hr].
    unfold uploadFile_resume, uploadFile_catch. rewrite Hr.
    destruct (N8n.success r);
      cbn [setUploadFiles clearInterval intervals];
      apply FileUploadFacts.find_after_clear. }
  intros Hnone. rewrite Hint, Hnone. reflexivity.
Qed.

(** ** How the handlers compose *)

Lemma rewrites_commute (i j : string) (g h : UploadFile -> UploadFile)
    (l : list UploadFile) :
  i <> j ->
  (forall f, id (g f) = id f) -> (forall f, id (h f) = id f) ->
  map (fun f => if id f =? i then g f else f)
      (map (fun f => if id f =? j then h f else f) l)
  = map (fun f => if id f =? j then h f else f)
        (map (fun f => if id f =? i then g f else f) l).
Proof.
  intros Hne Hg Hh. rewrite !map_map. apply map_ext. intros f.
  destruct (id f =? i) eqn:Ei, (id f =? j) eqn:Ej;
    rewrite ?Hg, ?Hh, ?Ei, ?Ej; try reflexivity.
  apply String.eqb_eq in Ei. apply String.eqb_eq in Ej. congruence.
Qed.

Lemma filters_commute {A} (p q : A -> bool) (l : list A) :
  filter p (filter q l) = filter q (filter p l).
Proof.
  rewrite !filter_twice. apply filter_ext. intros x. apply andb_comm.
Qed.

(** X18.  The order in which two responses arrive does not matter: for
    attempts on entries with different identifiers, resuming one and then
    the other leaves the same state as the other order, whatever the two
    outcomes are. *)
Theorem responses_commute (a b : Attempt) (st : State) :
  id (entry a) <> id (entry b) ->
  uploadFile_resume a (uploadFile_resume b st) =
  uploadFile_resume b (uploadFile_resume a st).
Proof.
  intros Hne.
  unfold uploadFile_resume, uploadFile_catch, setUploadFiles, clearInterval,
    mark_success, mark_error.
  destruct (outcome a) as [ra | ea], (outcome b) as [rb | eb];
    try destruct (N8n.success ra); try destruct (N8n.success rb);
    cbn [uploadFiles intervals nextHandle inflight network readings];
    f_equal;
    try (apply rewrites_commute; [exact Hne | reflexivity | reflexivity]);
    try apply filters_commute.
Qed.

Lemma responses_commute_witness :
  FileUpload.uploadFile_resume Samples.photo_stored
    (FileUpload.uploadFile_resume Samples.notes_failed Fixtures.started)
  = FileUpload.uploadFile_resume Samples.notes_failed
      (FileUpload.uploadFile_resume Samples.photo_stored Fixtures.started).
Proof.
  apply (@responses_commute Samples.photo_stored Samples.notes_failed
           Fixtures.started).
  discriminate.
Defined.

(** X19.  Choosing files in two goes is choosing them in one: the second
    batch is appended after the first with the readings that follow, so
    the queue, and everything else in the state, is the same as for the
    two batches chosen together. *)
Theorem batches_compose (o : Oracle) (first second : list File) (st : State) :
  handleFiles o second (handleFiles o first st) =
  handleFiles o (first ++ second) st.
Proof.
  unfold handleFiles. cbn [uploadFiles intervals nextHandle inflight network
                           readings].
  unfold append_new.
  rewrite FileUploadFacts.newFiles_app, length_app, app_assoc, Nat.add_assoc.
  reflexivity.
Qed.

End QueueLaws.
